(** * PiSight relay: the per-connection session coordinator

    The repository holds several revisions of one Socket.IO server.  Three of
    them are embedded here, each in a module of its own:

    - [ServerJs]  : [src/server.js]  (module-level [img], per-connection
                    [imageChunks], no busy flag, failures only logged);
    - [Part001]   : the revision with [sessionData] and the [audio_full]
                    handler (no streaming transcriber);
    - [Part002]   : the revision with [sessionData], a streaming transcriber
                    kept in [sessionData.transcriber], and [audio_start].

    An [async] handler is split at its [await]s: the synchronous prefix runs
    when the event arrives, and every later piece runs when the awaited
    promise settles.  A suspended handler is a [Task] in the world's task
    list; the environment picks which one settles next and how, so every
    interleaving the event loop allows is a trace of [step]. *)

From Stdlib Require Import ZArith.
From stdpp Require Import gmap strings list.

Open Scope string_scope.
Open Scope list_scope.
Open Scope nat_scope.

(** ** Values shared by the three revisions *)

(** A Node [Buffer] holding image or audio bytes sent by the client. *)
Definition Buffer := list Byte.byte.

(** [Buffer.concat(list)]. *)
Definition Buffer_concat (bs : list Buffer) : Buffer := concat bs.

(** Either a value or a thrown error / rejected promise with its message. *)
Inductive Result (A : Type) :=
| Ok (a : A)
| Throw (message : string).
Arguments Ok {A} a.
Arguments Throw {A} message.

(** What the client put where the handler expects bytes.  [Buffer.from]
    accepts the first and throws a [TypeError] on the second (a number, null,
    a missing field, or a [data] that is itself null). *)
Inductive JsBytes :=
| Bytes (b : Buffer)
| NotBytes (message : string).

Definition Buffer_from (x : JsBytes) : Result Buffer :=
  match x with
  | Bytes b => Ok b
  | NotBytes m => Throw m
  end.

(** JS truthiness of a string: only the empty string is falsy. *)
Definition truthy (s : string) : bool :=
  match s with
  | EmptyString => false
  | String _ _ => true
  end.

(** Client -> server events. *)
Inductive ClientEvent :=
| audio_chunk (chunk : JsBytes)
| audio_full (arrayBuffer : JsBytes)
| audio_start
| audio_end
| image_chunk (chunk : JsBytes) (isLast : bool)
| text_message (message : string)
| clear_image
| disconnect.

(** Events of the streaming transcriber (upstream -> server). *)
Inductive SttEvent :=
| stt_open (id : string)
| stt_error (message : string)
| stt_close
| turn (transcript : string).

(** The audio buffer produced by [textToAudio]: [Buffer.from(data, "base64")]
    of the upstream payload, or the empty fallback [Buffer.from("")].  The
    bytes are never inspected by the server, so the buffer is kept symbolic.
    Two terms may stand for the same bytes: decoding a string without any
    base64 character also gives the empty buffer. *)
Inductive Audio :=
| FromBase64 (data : string)
| EmptyAudio.

(** The [audio] field of [ai_response]: the buffer itself, or
    [aiAudioBuffer.toString("base64")]. *)
Inductive AudioField :=
| RawBuffer (a : Audio)
| Base64String (a : Audio).

(** Server -> client events, as passed to [socket.emit]. *)
Inductive ServerEvent :=
| emit_ai_response (text : string) (audio : AudioField) (timestamp : Z)
| emit_ai_response_audio (audio : Audio)
| emit_ai_text_response (text : string)
| emit_image_received (size : nat) (timestamp : Z)
| emit_image_cleared
| emit_error (type message : string)
| emit_stt_ready (sessionId : string).

(** Calls made to the external collaborators.  [call_stream_write b] stands
    for a call of [writer.write(b)] that returned: a chunk handed over to
    the transcriber's stream. *)
Inductive Call :=
| call_AiProcessing (img : option Buffer) (text : string)
| call_textToAudio (text : string)
| call_upload (audio : Buffer)
| call_transcripts_create (audio_url : string)
| call_transcripts_wait (id : string)
| call_stream_write (chunk : Buffer)
| call_close.

(** Which handler a suspended dispatcher invocation belongs to. *)
Inductive Origin :=
| from_turn
| from_text_message
| from_audio_full.

(** A handler suspended at an [await]. *)
Inductive Task :=
| await_upload
| await_create
| await_wait
| await_AiProcessing (o : Origin)
| await_textToAudio (o : Origin) (aiResponseText : string)
| await_close.

(** How an awaited promise settles.  [textToAudio] is a function of this
    repository; its own awaits ([generateContent], [saveWaveFile]) touch no
    session state, so one settlement carries their outcomes and the value of
    [process.env.DEBUG_SAVE_AUDIO === "true"]. *)
Inductive Settlement :=
| upload_settles (r : Result string)
| create_settles (r : Result string)
| wait_settles (r : Result (option string))
| AiProcessing_settles (r : Result string)
| textToAudio_runs (generateContent : Result (option string))
                   (DEBUG_SAVE_AUDIO : bool) (saveWaveFile : Result unit)
| close_settles (r : Result unit).

(** What the synchronous part of a handler reads from its environment:
    [Date.now()], and for [audio_chunk] the two things the expression
    [transcriber.stream().writer.write(...)] depends on.  [stream] says
    whether [transcriber.stream().writer.write] can be looked up at all:
    it is false when [stream()] returns nothing and also when the stream it
    returns has no [writer]; in both cases nothing is called (part_002 skips
    the chunk or catches the [TypeError], [src/server.js] throws before
    [Buffer.from] is evaluated).  [write] says whether the call of
    [writer.write] returns or throws. *)
Record SyncEnv := MkEnv {
  now : Z;
  stream : bool;
  write : Result unit
}.

Definition at_time (t : Z) : SyncEnv :=
  {| now := t; stream := true; write := Ok tt |}.

Inductive Event :=
| client (e : ClientEvent)
| upstream (e : SttEvent).

Inductive Label :=
| Arrive (e : Event)
| Settle (i : nat) (r : Settlement).

(** The observable state of one connection: the revision's session data, the
    suspended handlers, what was emitted to the client and which collaborator
    calls were made (both oldest first), and the errors that escaped a
    handler (an exception thrown by a listener, or the rejection of an
    [async] listener's promise, which nothing handles). *)
Record World (S : Type) := MkWorld {
  session : S;
  tasks : list Task;
  emitted : list ServerEvent;
  calls : list Call;
  unhandled : list string
}.
Arguments MkWorld {S}.
Arguments session {S}.
Arguments tasks {S}.
Arguments emitted {S}.
Arguments calls {S}.
Arguments unhandled {S}.

Section WorldOps.
Context {S : Type}.

Definition fresh_world (s : S) : World S :=
  MkWorld s [] [] [] [].

Definition with_session (f : S -> S) (w : World S) : World S :=
  MkWorld (f (session w)) (tasks w) (emitted w) (calls w) (unhandled w).

Definition with_tasks (ts : list Task) (w : World S) : World S :=
  MkWorld (session w) ts (emitted w) (calls w) (unhandled w).

(** [socket.emit(...)]. *)
Definition emit (e : ServerEvent) (w : World S) : World S :=
  MkWorld (session w) (tasks w) (emitted w ++ [e]) (calls w) (unhandled w).

Definition call (c : Call) (w : World S) : World S :=
  MkWorld (session w) (tasks w) (emitted w) (calls w ++ [c]) (unhandled w).

(** The handler reaches an [await] and yields to the event loop. *)
Definition suspend (t : Task) (w : World S) : World S :=
  with_tasks (tasks w ++ [t]) w.

(** An error leaves the handler uncaught. *)
Definition escape (m : string) (w : World S) : World S :=
  MkWorld (session w) (tasks w) (emitted w) (calls w) (unhandled w ++ [m]).

(** A settled task either suspends again (it keeps its slot) or ends. *)
Definition reschedule (i : nat) (next : option Task) (w : World S) : World S :=
  match next with
  | Some t => with_tasks (<[i := t]> (tasks w)) w
  | None => with_tasks (delete i (tasks w)) w
  end.
End WorldOps.

(** The calls to [AiProcessing] or [textToAudio] that have not returned. *)
Definition ai_call (t : Task) : bool :=
  match t with
  | await_AiProcessing _ | await_textToAudio _ _ => true
  | _ => false
  end.

(** The handler invocations that went past the busy guard (every stage of
    [audio_full], [text_message] and [turn]). *)
Definition dispatching (t : Task) : bool :=
  match t with
  | await_close => false
  | _ => true
  end.

Fixpoint count (p : Task -> bool) (ts : list Task) : nat :=
  match ts with
  | [] => 0
  | t :: ts' => (if p t then 1 else 0) + count p ts'
  end.

Definition in_flight {S} (w : World S) : nat := count ai_call (tasks w).
Definition active {S} (w : World S) : nat := count dispatching (tasks w).

(** The error kinds of the taxonomy. *)
Definition taxonomy : list string :=
  ["busy"; "stt"; "ai_processing"; "text_processing"; "full_audio";
   "image_upload"; "initialization"].

(** The [AiProcessing] calls of a call log, oldest first. *)
Definition images_passed (cs : list Call) : list (option Buffer) :=
  omap (fun c => match c with
                 | call_AiProcessing img _ => Some img
                 | _ => None
                 end) cs.



(** ** The revision with [sessionData] and [audio_full] (part_001) *)

Module Part001.

Record SessionData := MkSession {
  image : option Buffer;
  imageChunks : list Buffer;
  isProcessing : bool
}.

Definition set_image (v : option Buffer) (s : SessionData) : SessionData :=
  MkSession v (imageChunks s) (isProcessing s).

Definition set_imageChunks (v : list Buffer) (s : SessionData) : SessionData :=
  MkSession (image s) v (isProcessing s).

Definition set_isProcessing (v : bool) (s : SessionData) : SessionData :=
  MkSession (image s) (imageChunks s) v.

(** [io.on("connection", (socket) => { const sessionData = {...}; ... })]:
    the callback is synchronous, every listener is registered at once. *)
Definition connection : World SessionData :=
  fresh_world (MkSession None [] false).

(** [textToAudio]: [generateContent], the [!data] test, the optional
    [saveWaveFile]; the [catch] logs and throws the error again. *)
Definition textToAudio (generateContent : Result (option string))
    (DEBUG_SAVE_AUDIO : bool) (saveWaveFile : Result unit) : Result Audio :=
  match generateContent with
  | Throw m => Throw m
  | Ok None => Throw "No audio data returned from Gemini API."
  | Ok (Some data) =>
      if truthy data then
        if DEBUG_SAVE_AUDIO then
          match saveWaveFile with
          | Ok _ => Ok (FromBase64 data)
          | Throw m => Throw m
          end
        else Ok (FromBase64 data)
      else Throw "No audio data returned from Gemini API."
  end.

(** The [type] of the error event emitted by the handler's [catch]. *)
Definition catch_type (o : Origin) : option string :=
  match o with
  | from_audio_full => Some "full_audio"
  | from_text_message => Some "text_processing"
  | from_turn => None
  end.

(** [catch (err) { socket.emit("error", {type, message: err.message}) }
     finally { sessionData.isProcessing = false }]. *)
Definition catch_finally (type message : string) (w : World SessionData)
    : World SessionData :=
  with_session (set_isProcessing false) (emit (emit_error type message) w).

(** The end of the [try] block, then [finally]. *)
Definition respond (env : SyncEnv) (text : string) (audio : Audio)
    (w : World SessionData) : World SessionData :=
  with_session (set_isProcessing false)
    (emit (emit_ai_response text (Base64String audio) (now env)) w).

Definition on_audio_full (arrayBuffer : JsBytes) (w : World SessionData)
    : World SessionData :=
  if isProcessing (session w) then
    emit (emit_error "busy" "Still processing previous request") w
  else
    let w1 := with_session (set_isProcessing true) w in
    match Buffer_from arrayBuffer with
    | Ok audioBuffer => suspend await_upload (call (call_upload audioBuffer) w1)
    | Throw m => catch_finally "full_audio" m w1
    end.

Definition on_image_chunk (env : SyncEnv) (chunk : JsBytes) (isLast : bool)
    (w : World SessionData) : World SessionData :=
  match Buffer_from chunk with
  | Ok bufferChunk =>
      let w1 :=
        with_session (fun s => set_imageChunks (imageChunks s ++ [bufferChunk]) s) w in
      if isLast then
        let full := Buffer_concat (imageChunks (session w1)) in
        let w2 := with_session (set_image (Some full)) w1 in
        let w3 := with_session (set_imageChunks []) w2 in
        emit (emit_image_received (length full) (now env)) w3
      else w1
  | Throw m => emit (emit_error "image_upload" m) w
  end.

Definition on_text_message (message : string) (w : World SessionData)
    : World SessionData :=
  if isProcessing (session w) then
    emit (emit_error "busy" "Still processing previous request") w
  else
    let w1 := with_session (set_isProcessing true) w in
    suspend (await_AiProcessing from_text_message)
      (call (call_AiProcessing (image (session w1)) message) w1).

Definition on_clear_image (w : World SessionData) : World SessionData :=
  emit emit_image_cleared (with_session (set_image None) w).

Definition on_disconnect (w : World SessionData) : World SessionData :=
  with_session (set_imageChunks []) (with_session (set_image None) w).

(** The listeners of this revision; an event without a listener
    ([audio_chunk], [audio_start], [audio_end]) is dropped, and there is no
    streaming transcriber, hence no upstream event. *)
Definition arrive (env : SyncEnv) (e : Event) (w : World SessionData)
    : World SessionData :=
  match e with
  | client (audio_full arrayBuffer) => on_audio_full arrayBuffer w
  | client (image_chunk chunk isLast) => on_image_chunk env chunk isLast w
  | client (text_message message) => on_text_message message w
  | client clear_image => on_clear_image w
  | client disconnect => on_disconnect w
  | _ => w
  end.

(** The continuation of a suspended handler once its promise settles: the
    next [await] it stops at (or none, when it ran to its end), and the
    world it leaves.  [None] when the settlement is not of the promise the
    task waits for. *)
Definition resume (env : SyncEnv) (t : Task) (r : Settlement)
    (w : World SessionData) : option (option Task * World SessionData) :=
  match t, r with
  | await_upload, upload_settles (Ok upload_url) =>
      Some (Some await_create, call (call_transcripts_create upload_url) w)
  | await_upload, upload_settles (Throw m) =>
      Some (None, catch_finally "full_audio" m w)
  | await_create, create_settles (Ok id) =>
      Some (Some await_wait, call (call_transcripts_wait id) w)
  | await_create, create_settles (Throw m) =>
      Some (None, catch_finally "full_audio" m w)
  | await_wait, wait_settles (Ok text) =>
      let transcript := default "" text in
      Some (Some (await_AiProcessing from_audio_full),
            call (call_AiProcessing (image (session w)) transcript) w)
  | await_wait, wait_settles (Throw m) =>
      Some (None, catch_finally "full_audio" m w)
  | await_AiProcessing o, AiProcessing_settles (Ok aiResponseText) =>
      match catch_type o with
      | Some _ =>
          Some (Some (await_textToAudio o aiResponseText),
                call (call_textToAudio aiResponseText) w)
      | None => None
      end
  | await_AiProcessing o, AiProcessing_settles (Throw m) =>
      match catch_type o with
      | Some type => Some (None, catch_finally type m w)
      | None => None
      end
  | await_textToAudio o aiResponseText, textToAudio_runs g d s =>
      match catch_type o with
      | Some type =>
          match textToAudio g d s with
          | Ok aiAudioBuffer => Some (None, respond env aiResponseText aiAudioBuffer w)
          | Throw m => Some (None, catch_finally type m w)
          end
      | None => None
      end
  | _, _ => None
  end.

Definition step (env : SyncEnv) (l : Label) (w : World SessionData)
    : option (World SessionData) :=
  match l with
  | Arrive e => Some (arrive env e w)
  | Settle i r =>
      match tasks w !! i with
      | Some t =>
          match resume env t r w with
          | Some (next, w') => Some (reschedule i next w')
          | None => None
          end
      | None => None
      end
  end.

Fixpoint run (tr : list (SyncEnv * Label)) (w : World SessionData)
    : option (World SessionData) :=
  match tr with
  | [] => Some w
  | (env, l) :: tr' =>
      match step env l w with
      | Some w' => run tr' w'
      | None => None
      end
  end.

(** *** The whole process: one [sessionData] per socket id *)

Definition connect (id : string) (w0 : World SessionData)
    (p : gmap string (World SessionData)) : gmap string (World SessionData) :=
  <[id := w0]> p.

Definition deliver (env : SyncEnv) (id : string) (l : Label)
    (p : gmap string (World SessionData))
    : option (gmap string (World SessionData)) :=
  match p !! id with
  | Some w =>
      match step env l w with
      | Some w' => Some (<[id := w']> p)
      | None => None
      end
  | None => None
  end.

Fixpoint deliver_all (tr : list (SyncEnv * string * Label))
    (p : gmap string (World SessionData))
    : option (gmap string (World SessionData)) :=
  match tr with
  | [] => Some p
  | (env, id, l) :: tr' =>
      match deliver env id l p with
      | Some p' => deliver_all tr' p'
      | None => None
      end
  end.

End Part001.

(** ** The revision with [sessionData] and a streaming transcriber (part_002) *)

Module Part002.

(** The object returned by [assemblyClient.streaming.transcriber(...)]. *)
Inductive Transcriber := StreamingTranscriber.

Record SessionData := MkSession {
  image : option Buffer;
  imageChunks : list Buffer;
  transcriber : option Transcriber;
  isProcessing : bool
}.

Definition set_image (v : option Buffer) (s : SessionData) : SessionData :=
  MkSession v (imageChunks s) (transcriber s) (isProcessing s).

Definition set_imageChunks (v : list Buffer) (s : SessionData) : SessionData :=
  MkSession (image s) v (transcriber s) (isProcessing s).

Definition set_isProcessing (v : bool) (s : SessionData) : SessionData :=
  MkSession (image s) (imageChunks s) (transcriber s) v.

(** How the [try] block of the connection callback goes: creating the
    transcriber throws, [await transcriber.connect()] rejects, or both
    succeed. *)
Inductive Setup :=
| transcriber_throws (message : string)
| connect_rejects (message : string)
| connects.

(** The connection callback up to the registration of the socket
    listeners. *)
Definition connection (s : Setup) : World SessionData :=
  match s with
  | transcriber_throws m =>
      emit (emit_error "initialization" m)
        (fresh_world (MkSession None [] None false))
  | connect_rejects m =>
      emit (emit_error "initialization" m)
        (fresh_world (MkSession None [] (Some StreamingTranscriber) false))
  | connects =>
      fresh_world (MkSession None [] (Some StreamingTranscriber) false)
  end.

Definition textToAudio (generateContent : Result (option string))
    (DEBUG_SAVE_AUDIO : bool) (saveWaveFile : Result unit) : Result Audio :=
  match generateContent with
  | Throw m => Throw m
  | Ok None => Throw "No audio data returned from Gemini API."
  | Ok (Some data) =>
      if truthy data then
        if DEBUG_SAVE_AUDIO then
          match saveWaveFile with
          | Ok _ => Ok (FromBase64 data)
          | Throw m => Throw m
          end
        else Ok (FromBase64 data)
      else Throw "No audio data returned from Gemini API."
  end.

(** The error event of the handler's [catch]; this revision sends a fixed
    message, not [err.message]. *)
Definition catch_event (o : Origin) : option ServerEvent :=
  match o with
  | from_turn =>
      Some (emit_error "ai_processing" "Failed to process your request")
  | from_text_message =>
      Some (emit_error "text_processing" "Failed to process your message")
  | from_audio_full => None
  end.

Definition catch_finally (e : ServerEvent) (w : World SessionData)
    : World SessionData :=
  with_session (set_isProcessing false) (emit e w).

Definition respond (env : SyncEnv) (text : string) (audio : Audio)
    (w : World SessionData) : World SessionData :=
  with_session (set_isProcessing false)
    (emit (emit_ai_response text (RawBuffer audio) (now env)) w).

Definition on_turn (transcript : string) (w : World SessionData)
    : World SessionData :=
  if negb (truthy transcript) || isProcessing (session w) then w
  else
    let w1 := with_session (set_isProcessing true) w in
    suspend (await_AiProcessing from_turn)
      (call (call_AiProcessing (image (session w1)) transcript) w1).

(** The write happens inside a [try] whose [catch] only logs: a missing
    writer, a malformed chunk and a failing [write] all leave the session as
    it was, and only a [write] that returns has written the chunk. *)
Definition on_audio_chunk (env : SyncEnv) (chunk : JsBytes)
    (w : World SessionData) : World SessionData :=
  match transcriber (session w) with
  | None => w
  | Some _ =>
      if stream env then
        match Buffer_from chunk with
        | Ok b =>
            match write env with
            | Ok _ => call (call_stream_write b) w
            | Throw _ => w
            end
        | Throw _ => w
        end
      else w
  end.

Definition on_audio_start (w : World SessionData) : World SessionData :=
  with_session (set_isProcessing false) w.

Definition on_image_chunk (env : SyncEnv) (chunk : JsBytes) (isLast : bool)
    (w : World SessionData) : World SessionData :=
  match Buffer_from chunk with
  | Ok bufferChunk =>
      let w1 :=
        with_session (fun s => set_imageChunks (imageChunks s ++ [bufferChunk]) s) w in
      if isLast then
        let fullBuffer := Buffer_concat (imageChunks (session w1)) in
        let w2 := with_session (set_image (Some fullBuffer)) w1 in
        let w3 := emit (emit_image_received (length fullBuffer) (now env)) w2 in
        with_session (set_imageChunks []) w3
      else w1
  | Throw m => emit (emit_error "image_upload" m) w
  end.

Definition on_text_message (message : string) (w : World SessionData)
    : World SessionData :=
  if isProcessing (session w) then
    emit (emit_error "busy" "Still processing previous request") w
  else
    let w1 := with_session (set_isProcessing true) w in
    suspend (await_AiProcessing from_text_message)
      (call (call_AiProcessing (image (session w1)) message) w1).

Definition on_clear_image (w : World SessionData) : World SessionData :=
  emit emit_image_cleared (with_session (set_image None) w).

(** The lines after the [if (sessionData.transcriber) {...}] of the
    disconnect handler. *)
Definition clear_session (w : World SessionData) : World SessionData :=
  with_session (set_imageChunks []) (with_session (set_image None) w).

Definition on_disconnect (w : World SessionData) : World SessionData :=
  match transcriber (session w) with
  | Some _ => suspend await_close (call call_close w)
  | None => clear_session w
  end.

(** The transcriber's listeners exist only when the transcriber does. *)
Definition on_upstream (e : SttEvent) (w : World SessionData)
    : World SessionData :=
  match transcriber (session w) with
  | None => w
  | Some _ =>
      match e with
      | stt_open id => emit (emit_stt_ready id) w
      | stt_error m => emit (emit_error "stt" m) w
      | stt_close => w
      | turn transcript => on_turn transcript w
      end
  end.

(** [audio_full] has no listener in this revision and is dropped. *)
Definition arrive (env : SyncEnv) (e : Event) (w : World SessionData)
    : World SessionData :=
  match e with
  | upstream u => on_upstream u w
  | client (audio_chunk chunk) => on_audio_chunk env chunk w
  | client audio_start => on_audio_start w
  | client audio_end => w
  | client (image_chunk chunk isLast) => on_image_chunk env chunk isLast w
  | client (text_message message) => on_text_message message w
  | client clear_image => on_clear_image w
  | client disconnect => on_disconnect w
  | client (audio_full _) => w
  end.

Definition resume (env : SyncEnv) (t : Task) (r : Settlement)
    (w : World SessionData) : option (option Task * World SessionData) :=
  match t, r with
  | await_AiProcessing o, AiProcessing_settles (Ok aiResponseText) =>
      match catch_event o with
      | Some _ =>
          Some (Some (await_textToAudio o aiResponseText),
                call (call_textToAudio aiResponseText) w)
      | None => None
      end
  | await_AiProcessing o, AiProcessing_settles (Throw _) =>
      match catch_event o with
      | Some e => Some (None, catch_finally e w)
      | None => None
      end
  | await_textToAudio o aiResponseText, textToAudio_runs g d s =>
      match catch_event o with
      | Some e =>
          match textToAudio g d s with
          | Ok aiAudioBuffer => Some (None, respond env aiResponseText aiAudioBuffer w)
          | Throw _ => Some (None, catch_finally e w)
          end
      | None => None
      end
  | await_close, close_settles _ => Some (None, clear_session w)
  | _, _ => None
  end.

Definition step (env : SyncEnv) (l : Label) (w : World SessionData)
    : option (World SessionData) :=
  match l with
  | Arrive e => Some (arrive env e w)
  | Settle i r =>
      match tasks w !! i with
      | Some t =>
          match resume env t r w with
          | Some (next, w') => Some (reschedule i next w')
          | None => None
          end
      | None => None
      end
  end.

Fixpoint run (tr : list (SyncEnv * Label)) (w : World SessionData)
    : option (World SessionData) :=
  match tr with
  | [] => Some w
  | (env, l) :: tr' =>
      match step env l w with
      | Some w' => run tr' w'
      | None => None
      end
  end.

(** *** The whole process: one [sessionData] per socket id *)

Definition connect (id : string) (w0 : World SessionData)
    (p : gmap string (World SessionData)) : gmap string (World SessionData) :=
  <[id := w0]> p.

Definition deliver (env : SyncEnv) (id : string) (l : Label)
    (p : gmap string (World SessionData))
    : option (gmap string (World SessionData)) :=
  match p !! id with
  | Some w =>
      match step env l w with
      | Some w' => Some (<[id := w']> p)
      | None => None
      end
  | None => None
  end.

Fixpoint deliver_all (tr : list (SyncEnv * string * Label))
    (p : gmap string (World SessionData))
    : option (gmap string (World SessionData)) :=
  match tr with
  | [] => Some p
  | (env, id, l) :: tr' =>
      match deliver env id l p with
      | Some p' => deliver_all tr' p'
      | None => None
      end
  end.

End Part002.

(** ** [src/server.js] *)

Module ServerJs.

(** What the connection callback declares: [let imageChunks = []], the
    [transcriber] constant, and whether the callback got as far as
    registering the socket listeners (they come after
    [await transcriber.connect()]). *)
Record Connection := MkConnection {
  imageChunks : list Buffer;
  transcriber : bool;
  listening : bool
}.

Definition set_imageChunks (v : list Buffer) (c : Connection) : Connection :=
  MkConnection v (transcriber c) (listening c).

(** The module-level [let img;] is not part of a connection: every handler
    takes the current value and returns the new one. *)
Definition Img := option Buffer.

Inductive Setup :=
| transcriber_throws (message : string)
| connect_rejects (message : string)
| connects.

(** The connection callback is [async] and has no [try]: a failure rejects
    its promise and the rest of the callback does not run. *)
Definition connection (s : Setup) : World Connection :=
  match s with
  | transcriber_throws m => escape m (fresh_world (MkConnection [] false false))
  | connect_rejects m => escape m (fresh_world (MkConnection [] true false))
  | connects => fresh_world (MkConnection [] true true)
  end.

(** [textToAudio]: [saveWaveFile] is always awaited, and the [catch]
    returns the fallback [Buffer.from("")]. *)
Definition textToAudio (generateContent : Result (option string))
    (saveWaveFile : Result unit) : Audio :=
  match generateContent with
  | Throw _ => EmptyAudio
  | Ok None => EmptyAudio
  | Ok (Some data) =>
      if truthy data then
        match saveWaveFile with
        | Ok _ => FromBase64 data
        | Throw _ => EmptyAudio
        end
      else EmptyAudio
  end.

Definition on_turn (transcript : string) (img : Img) (w : World Connection)
    : World Connection :=
  if negb (truthy transcript) then w
  else suspend (await_AiProcessing from_turn)
         (call (call_AiProcessing img transcript) w).

(** No [try]: the lookup of [.writer.write] comes first, then
    [Buffer.from(chunk)], then the call; whichever throws leaves the
    listener uncaught, and only a [write] that returns has written the
    chunk. *)
Definition on_audio_chunk (env : SyncEnv) (chunk : JsBytes)
    (w : World Connection) : World Connection :=
  if stream env then
    match Buffer_from chunk with
    | Throw m => escape m w
    | Ok b =>
        match write env with
        | Ok _ => call (call_stream_write b) w
        | Throw m => escape m w
        end
    end
  else escape "Cannot read properties of undefined (reading 'writer')" w.

Definition on_image_chunk (chunk : JsBytes) (isLast : bool) (img : Img)
    (w : World Connection) : Img * World Connection :=
  match Buffer_from chunk with
  | Ok bufferChunk =>
      let w1 :=
        with_session (fun c => set_imageChunks (imageChunks c ++ [bufferChunk]) c) w in
      if isLast then
        let fullBuffer := Buffer_concat (imageChunks (session w1)) in
        (Some fullBuffer, with_session (set_imageChunks []) w1)
      else (img, w1)
  | Throw m => (img, escape m w)
  end.

Definition on_text_message (message : string) (img : Img)
    (w : World Connection) : World Connection :=
  suspend (await_AiProcessing from_text_message)
    (call (call_AiProcessing img message) w).

Definition on_disconnect (w : World Connection) : World Connection :=
  suspend await_close (call call_close w).

(** The transcriber's listeners are registered as soon as it exists; the
    socket's only when the callback ran to its end.  [audio_full],
    [audio_start], [audio_end] and [clear_image] have no listener. *)
Definition arrive (env : SyncEnv) (e : Event) (img : Img)
    (w : World Connection) : Img * World Connection :=
  match e with
  | upstream (turn transcript) =>
      if transcriber (session w) then (img, on_turn transcript img w)
      else (img, w)
  | upstream _ => (img, w)
  | client c =>
      if listening (session w) then
        match c with
        | audio_chunk chunk => (img, on_audio_chunk env chunk w)
        | image_chunk chunk isLast => on_image_chunk chunk isLast img w
        | text_message message => (img, on_text_message message img w)
        | disconnect => (img, on_disconnect w)
        | _ => (img, w)
        end
      else (img, w)
  end.

(** The [catch] of the [turn] and [text_message] handlers only logs. *)
Definition resume (t : Task) (r : Settlement) (w : World Connection)
    : option (option Task * World Connection) :=
  match t, r with
  | await_AiProcessing from_audio_full, _ => None
  | await_textToAudio from_audio_full _, _ => None
  | await_AiProcessing o, AiProcessing_settles (Ok aiResponseText) =>
      Some (Some (await_textToAudio o aiResponseText),
            call (call_textToAudio aiResponseText) w)
  | await_AiProcessing _, AiProcessing_settles (Throw _) => Some (None, w)
  | await_textToAudio from_turn _, textToAudio_runs g _ s =>
      Some (None, emit (emit_ai_response_audio (textToAudio g s)) w)
  | await_textToAudio from_text_message aiResponseText, textToAudio_runs g _ s =>
      Some (None, emit (emit_ai_response_audio (textToAudio g s))
                    (emit (emit_ai_text_response aiResponseText) w))
  | await_close, close_settles (Ok _) => Some (None, w)
  | await_close, close_settles (Throw m) => Some (None, escape m w)
  | _, _ => None
  end.

Definition step (env : SyncEnv) (l : Label) (img : Img) (w : World Connection)
    : option (Img * World Connection) :=
  match l with
  | Arrive e => Some (arrive env e img w)
  | Settle i r =>
      match tasks w !! i with
      | Some t =>
          match resume t r w with
          | Some (next, w') => Some (img, reschedule i next w')
          | None => None
          end
      | None => None
      end
  end.

Fixpoint run (tr : list (SyncEnv * Label)) (img : Img) (w : World Connection)
    : option (Img * World Connection) :=
  match tr with
  | [] => Some (img, w)
  | (env, l) :: tr' =>
      match step env l img w with
      | Some (img', w') => run tr' img' w'
      | None => None
      end
  end.

(** *** The whole process: one [img], one connection per socket id *)

Record Process := MkProcess {
  img : Img;
  sockets : gmap string (World Connection)
}.

(** [let img;] before any connection. *)
Definition boot : Process := MkProcess None ∅.

Definition connect (id : string) (s : Setup) (p : Process) : Process :=
  MkProcess (img p) (<[id := connection s]> (sockets p)).

(** A label addressed to the connection of socket [id]. *)
Definition deliver (env : SyncEnv) (id : string) (l : Label) (p : Process)
    : option Process :=
  match sockets p !! id with
  | Some w =>
      match step env l (img p) w with
      | Some (img', w') => Some (MkProcess img' (<[id := w']> (sockets p)))
      | None => None
      end
  | None => None
  end.

Fixpoint deliver_all (tr : list (SyncEnv * string * Label)) (p : Process)
    : option Process :=
  match tr with
  | [] => Some p
  | (env, id, l) :: tr' =>
      match deliver env id l p with
      | Some p' => deliver_all tr' p'
      | None => None
      end
  end.

(** What socket [id] observes: the events emitted to it and the calls made
    on its behalf. *)
Definition observed (id : string) (p : Process)
    : option (list ServerEvent * list Call) :=
  match sockets p !! id with
  | Some w => Some (emitted w, calls w)
  | None => None
  end.

End ServerJs.

(** ** Vocabulary of the statements *)

(** A well-formed [image_chunk] event. *)
Definition chunk_label (c : SyncEnv * Buffer * bool) : SyncEnv * Label :=
  (c.1.1, Arrive (client (image_chunk (Bytes c.1.2) c.2))).

(** A chunk that is not the last of its upload. *)
Definition inner_chunk (c : SyncEnv * Buffer) : SyncEnv * Label :=
  chunk_label (c.1, c.2, false).

(** The chunk that ends an upload. *)
Definition final_chunk (env : SyncEnv) (b : Buffer) : SyncEnv * Label :=
  chunk_label (env, b, true).

(** The label completes an image upload. *)
Definition completes_upload (l : Label) : bool :=
  match l with
  | Arrive (client (image_chunk (Bytes _) true)) => true
  | _ => false
  end.

Definition is_audio_start (l : Label) : bool :=
  match l with
  | Arrive (client audio_start) => true
  | _ => false
  end.

Definition AB : Buffer := String.list_byte_of_string "AB".
Definition CD : Buffer := String.list_byte_of_string "CD".

(** How every promise a dispatcher invocation may wait for will settle. *)
Record Oracle := MkOracle {
  upload_result : Result string;
  create_result : Result string;
  wait_result : Result (option string);
  AiProcessing_result : Result string;
  generateContent_result : Result (option string);
  debug_save_audio : bool;
  saveWaveFile_result : Result unit;
  close_result : Result unit
}.

Definition settlement_for (o : Oracle) (t : Task) : Settlement :=
  match t with
  | await_upload => upload_settles (upload_result o)
  | await_create => create_settles (create_result o)
  | await_wait => wait_settles (wait_result o)
  | await_AiProcessing _ => AiProcessing_settles (AiProcessing_result o)
  | await_textToAudio _ _ =>
      textToAudio_runs (generateContent_result o) (debug_save_audio o)
        (saveWaveFile_result o)
  | await_close => close_settles (close_result o)
  end.

(** Settle the handler in slot [i] again and again, as the oracle says, until
    it runs to its end (its slot is freed) or [fuel] settlements were made. *)
Fixpoint drive {S : Type} (step : SyncEnv -> Label -> World S -> option (World S))
    (fuel : nat) (env : SyncEnv) (o : Oracle) (i : nat) (w : World S) : World S :=
  match fuel with
  | 0 => w
  | Datatypes.S fuel' =>
      match tasks w !! i with
      | Some t =>
          match step env (Settle i (settlement_for o t)) w with
          | Some w' =>
              if length (tasks w') <? length (tasks w) then w'
              else drive step fuel' env o i w'
          | None => w
          end
      | None => w
      end
  end.

(** The labels of a process trace addressed to socket [id]. *)
Definition project (id : string) (tr : list (SyncEnv * string * Label))
    : list (SyncEnv * Label) :=
  omap (fun x => if decide (x.1.2 = id) then Some (x.1.1, x.2) else None) tr.

Definition is_Throw {A : Type} (r : Result A) : bool :=
  match r with
  | Throw _ => true
  | Ok _ => false
  end.

(** The failures a handler of part_001 can meet: a request while busy, a
    malformed [image_chunk] or [audio_full] payload, a rejected upload,
    transcript, [AiProcessing] or [textToAudio]. *)
Definition p1_raises (l : Label) (w : World Part001.SessionData) : bool :=
  match l with
  | Arrive (client (text_message _)) => Part001.isProcessing (session w)
  | Arrive (client (audio_full a)) =>
      Part001.isProcessing (session w) || is_Throw (Buffer_from a)
  | Arrive (client (image_chunk c _)) => is_Throw (Buffer_from c)
  | Settle _ (upload_settles r) => is_Throw r
  | Settle _ (create_settles r) => is_Throw r
  | Settle _ (wait_settles r) => is_Throw r
  | Settle _ (AiProcessing_settles r) => is_Throw r
  | Settle _ (textToAudio_runs g d s) => is_Throw (Part001.textToAudio g d s)
  | _ => false
  end.

(** The failures that part_002 reports: a [text_message] while busy, a
    malformed [image_chunk], a rejected [AiProcessing] or [textToAudio], an
    error of the streaming transcriber.  (A [turn] while busy is dropped, a
    failing audio write or [close] is logged.) *)
Definition p2_raises (l : Label) (w : World Part002.SessionData) : bool :=
  match l with
  | Arrive (client (text_message _)) => Part002.isProcessing (session w)
  | Arrive (client (image_chunk c _)) => is_Throw (Buffer_from c)
  | Arrive (upstream (stt_error _)) =>
      match Part002.transcriber (session w) with
      | Some _ => true
      | None => false
      end
  | Settle _ (AiProcessing_settles r) => is_Throw r
  | Settle _ (textToAudio_runs g d s) => is_Throw (Part002.textToAudio g d s)
  | _ => false
  end.

(** The invocation that [step] just resumed ran to its end. *)
Definition ended {S : Type} (w w' : World S) : Prop :=
  length (tasks w') < length (tasks w).

(** A [text_message] arriving now passes the busy guard: nothing is emitted
    and [AiProcessing] is called. *)
Definition p1_accepts (w : World Part001.SessionData) : Prop :=
  forall env m,
    let w' := Part001.arrive env (client (text_message m)) w in
    emitted w' = emitted w
    /\ calls w' = calls w ++ [call_AiProcessing (Part001.image (session w)) m].

Definition p2_accepts (w : World Part002.SessionData) : Prop :=
  forall env m,
    let w' := Part002.arrive env (client (text_message m)) w in
    emitted w' = emitted w
    /\ calls w' = calls w ++ [call_AiProcessing (Part002.image (session w)) m].



(** The payloads of the well-formed chunks of a trace that are not the last
    of their upload, in arrival order. *)
Definition payload_of (l : Label) : option Buffer :=
  match l with
  | Arrive (client (image_chunk (Bytes b) false)) => Some b
  | _ => None
  end.

Definition chunk_payloads (tr : list (SyncEnv * Label)) : list Buffer :=
  omap (fun x => payload_of x.2) tr.

Definition no_upload_completes (tr : list (SyncEnv * Label)) : bool :=
  forallb (fun x => negb (completes_upload x.2)) tr.

Definition no_audio_start (tr : list (SyncEnv * Label)) : bool :=
  forallb (fun x => negb (is_audio_start x.2)) tr.

(** The busy flag is set exactly when one invocation is past the guard. *)
Definition p1_flag_counts (w : World Part001.SessionData) : Prop :=
  active w = if Part001.isProcessing (session w) then 1 else 0.

Definition p2_flag_counts (w : World Part002.SessionData) : Prop :=
  active w = if Part002.isProcessing (session w) then 1 else 0.

(** The suspended dispatcher invocations each revision can hold, and the
    number of awaits an invocation still has before it. *)
Definition p1_task (t : Task) : bool :=
  match t with
  | await_upload | await_create | await_wait => true
  | await_AiProcessing o | await_textToAudio o _ =>
      match o with
      | from_turn => false
      | _ => true
      end
  | await_close => false
  end.

Definition p2_task (t : Task) : bool :=
  match t with
  | await_AiProcessing o | await_textToAudio o _ =>
      match o with
      | from_audio_full => false
      | _ => true
      end
  | _ => false
  end.

Definition awaits_left (t : Task) : nat :=
  match t with
  | await_upload => 5
  | await_create => 4
  | await_wait => 3
  | await_AiProcessing _ => 2
  | await_textToAudio _ _ => 1
  | await_close => 1
  end.

(** ** Proof steps shared by the facts below *)

Ltac resume_cases H :=
  match type of H with
  | Part001.resume _ ?t ?r _ = Some _ =>
      unfold Part001.resume, Part001.catch_finally, Part001.respond in H;
      destruct t, r; repeat case_match; simplify_eq; simpl in *
  | Part002.resume _ ?t ?r _ = Some _ =>
      unfold Part002.resume, Part002.catch_finally, Part002.respond,
        Part002.clear_session in H;
      destruct t, r; repeat case_match; simplify_eq; simpl in *
  end.

Ltac in_taxonomy := simpl; tauto.

Ltac emits_nothing :=
  exists []; rewrite app_nil_r; split; [reflexivity |];
  split; [by intros ? ? [] | intros Hx; simpl in Hx; repeat case_match; first [done | congruence]].

Ltac emits_one :=
  eexists [_]; split; [reflexivity |];
  split;
  [ intros ? ? [E | []]; simplify_eq; in_taxonomy
  | first [ by intros ? | intros _; do 2 eexists; split; [reflexivity | in_taxonomy] ] ].

(** ** [src/controllers/aiAgent.controller.js] *)

Module AiAgentController.

(** The string [`data:image/png;base64,${base64}`] built from
    [Buffer.from(img).toString("base64")]: determined by the bytes, which is
    all that is kept of it. *)
Inductive DataUrl :=
| data_image_png_base64 (bytes : Buffer).

(** An element of a message's [content] array. *)
Inductive Part :=
| text_part (text : string)
| image_part (image : DataUrl).

Record Message := MkMessage {
  role : string;
  content : list Part
}.







(** The [messages] array: the user's text, then, [if (img)], the image with
    its fixed caption.  A [Buffer] is an object and hence truthy even when
    it is empty; only null and undefined skip the branch. *)
Definition build_messages (img : option Buffer) (message : string)
    : list Message :=
  let messages := [MkMessage "user" [text_part message]] in
  match img with
  | Some b =>
      messages
      ++ [MkMessage "user"
            [text_part "Describe this image in detail";
             image_part (data_image_png_base64 b)]]
  | None => messages
  end.




End AiAgentController.

(** ** Vocabulary of the further facts *)


(** The parts of all messages of a request, in order. *)
Definition all_parts (ms : list AiAgentController.Message)
    : list AiAgentController.Part :=
  concat (map AiAgentController.content ms).

(** The buffers written to the transcriber's stream (the [write] calls that
    returned), oldest first. *)
Definition stream_writes (cs : list Call) : list Buffer :=
  omap (fun c => match c with
                 | call_stream_write b => Some b
                 | _ => None
                 end) cs.

(** The payload of a well-formed [audio_chunk] that finds a stream with its
    writer and whose [write] returns. *)
Definition audio_payload (x : SyncEnv * Label) : option Buffer :=
  match x.2 with
  | Arrive (client (audio_chunk (Bytes b))) =>
      if stream x.1 then
        match write x.1 with
        | Ok _ => Some b
        | Throw _ => None
        end
      else None
  | _ => None
  end.

Definition audio_payloads (tr : list (SyncEnv * Label)) : list Buffer :=
  omap audio_payload tr.

(** A [text_message] or [audio_full] event. *)
Definition is_request (l : Label) : bool :=
  match l with
  | Arrive (client (text_message _)) | Arrive (client (audio_full _)) => true
  | _ => false
  end.

Definition requests (tr : list (SyncEnv * Label)) : nat :=
  length (List.filter (fun x => is_request x.2) tr).

(** What answers a request in part_001: the [ai_response], or an [error]
    that is not about an image upload (busy, full_audio, text_processing). *)
Definition is_answer (e : ServerEvent) : bool :=
  match e with
  | emit_ai_response _ _ _ => true
  | emit_error type _ => negb (String.eqb type "image_upload")
  | _ => false
  end.

Definition answers (es : list ServerEvent) : nat :=
  length (List.filter is_answer es).

(** What ends a dispatcher invocation of part_002: the [ai_response] or the
    [error] of its [catch]. *)
Definition is_reply (e : ServerEvent) : bool :=
  match e with
  | emit_ai_response _ _ _ => true
  | emit_error type _ =>
      String.eqb type "ai_processing" || String.eqb type "text_processing"
  | _ => false
  end.

Definition replies (es : list ServerEvent) : nat :=
  length (List.filter is_reply es).

Definition is_error (e : ServerEvent) : bool :=
  match e with
  | emit_error _ _ => true
  | _ => false
  end.

Definition is_client (l : Label) : bool :=
  match l with
  | Arrive (client _) => true
  | _ => false
  end.

(** [n] times an [audio_start] followed by a [text_message]. *)
Fixpoint restarts (n : nat) (m : string) : list (SyncEnv * Label) :=
  match n with
  | 0 => []
  | Datatypes.S n' =>
      (at_time 0, Arrive (client audio_start))
      :: (at_time 0, Arrive (client (text_message m)))
      :: restarts n' m
  end.

Definition text_messages (ms : list string) : list (SyncEnv * Label) :=
  map (fun m => (at_time 0, Arrive (client (text_message m)))) ms.

Definition process_completes_upload (x : SyncEnv * string * Label) : bool :=
  completes_upload x.2.

Ltac sj_resume_cases H :=
  match type of H with
  | ServerJs.resume ?t ?r _ = Some _ =>
      unfold ServerJs.resume in H;
      destruct t, r; repeat case_match; simplify_eq; simpl in *
  end.

(** The labels on which a handler of [src/server.js] lets an error go:
    an [audio_chunk] that finds no stream, is malformed or cannot be
    written, a malformed [image_chunk], a rejected [close()]. *)
Definition sj_escapes (env : SyncEnv) (l : Label) (w : World ServerJs.Connection)
    : bool :=
  match l with
  | Arrive (client (audio_chunk c)) =>
      ServerJs.listening (session w)
      && (negb (stream env) || is_Throw (Buffer_from c) || is_Throw (write env))
  | Arrive (client (image_chunk c _)) =>
      ServerJs.listening (session w) && is_Throw (Buffer_from c)
  | Settle _ (close_settles r) => is_Throw r
  | _ => false
  end.

(** An error message of part_002 that does not depend on what failed. *)
Definition p2_fixed_message (e : ServerEvent) : Prop :=
  match e with
  | emit_error type message =>
      (type = "busy" -> message = "Still processing previous request")
      /\ (type = "ai_processing" -> message = "Failed to process your request")
      /\ (type = "text_processing" -> message = "Failed to process your message")
  | _ => True
  end.

(** The handler a suspended task belongs to. *)
Definition origin_of (t : Task) : option Origin :=
  match t with
  | await_upload | await_create | await_wait => Some from_audio_full
  | await_AiProcessing o | await_textToAudio o _ => Some o
  | await_close => None
  end.

(** The message of the error a settlement resumes the handler with, if it
    does: the rejection of the awaited promise, or what [textToAudio]
    throws. *)
Definition rejection
    (textToAudio : Result (option string) -> bool -> Result unit -> Result Audio)
    (r : Settlement) : option string :=
  match r with
  | upload_settles (Throw m) => Some m
  | create_settles (Throw m) => Some m
  | wait_settles (Throw m) => Some m
  | AiProcessing_settles (Throw m) => Some m
  | textToAudio_runs g d s =>
      match textToAudio g d s with
      | Throw m => Some m
      | Ok _ => None
      end
  | _ => None
  end.

(** The error event that each failure of part_001 is to be reported with:
    "busy" for a request while busy, "image_upload" for a malformed image
    chunk, "full_audio" for whatever fails in an [audio_full] request,
    "text_processing" for whatever fails in a [text_message] request; except
    for "busy" the message is the message of the error. *)
Definition p1_reported (l : Label) (w : World Part001.SessionData)
    : option ServerEvent :=
  match l with
  | Arrive (client (text_message _)) =>
      if Part001.isProcessing (session w)
      then Some (emit_error "busy" "Still processing previous request")
      else None
  | Arrive (client (audio_full a)) =>
      if Part001.isProcessing (session w)
      then Some (emit_error "busy" "Still processing previous request")
      else match Buffer_from a with
           | Throw m => Some (emit_error "full_audio" m)
           | Ok _ => None
           end
  | Arrive (client (image_chunk c _)) =>
      match Buffer_from c with
      | Throw m => Some (emit_error "image_upload" m)
      | Ok _ => None
      end
  | Settle i r =>
      match tasks w !! i, rejection Part001.textToAudio r with
      | Some t, Some m =>
          match origin_of t with
          | Some from_audio_full => Some (emit_error "full_audio" m)
          | Some from_text_message => Some (emit_error "text_processing" m)
          | _ => None
          end
      | _, _ => None
      end
  | _ => None
  end.

(** The error event that each failure of part_002 is to be reported with:
    "busy" for a [text_message] while busy, "image_upload" for a malformed
    image chunk, "stt" for an error of the transcriber, "ai_processing" for
    whatever fails in a request started by a [turn], "text_processing" for
    whatever fails in a [text_message] request; the last two carry the fixed
    message of their handler. *)
Definition p2_reported (l : Label) (w : World Part002.SessionData)
    : option ServerEvent :=
  match l with
  | Arrive (client (text_message _)) =>
      if Part002.isProcessing (session w)
      then Some (emit_error "busy" "Still processing previous request")
      else None
  | Arrive (client (image_chunk c _)) =>
      match Buffer_from c with
      | Throw m => Some (emit_error "image_upload" m)
      | Ok _ => None
      end
  | Arrive (upstream (stt_error m)) =>
      match Part002.transcriber (session w) with
      | Some _ => Some (emit_error "stt" m)
      | None => None
      end
  | Settle i r =>
      match tasks w !! i, rejection Part002.textToAudio r with
      | Some t, Some _ =>
          match origin_of t with
          | Some from_turn =>
              Some (emit_error "ai_processing" "Failed to process your request")
          | Some from_text_message =>
              Some (emit_error "text_processing" "Failed to process your message")
          | _ => None
          end
      | _, _ => None
      end
  | _ => None
  end.

(** * Facts *)

Section Counting.
Context (p : Task -> bool).

Lemma count_app (l1 l2 : list Task) :
  count p (l1 ++ l2) = count p l1 + count p l2.
Proof. induction l1 as [|t l1 IH]; simpl; [done | rewrite IH; lia]. Qed.

Lemma count_delete (l : list Task) (i : nat) (t : Task) :
  l !! i = Some t ->
  count p l = (if p t then 1 else 0) + count p (delete i l).
Proof.
  revert i. induction l as [|a l IH]; intros [|i] H; simplify_eq/=; [done |].
  rewrite (IH _ H). lia.
Qed.

Lemma count_insert (l : list Task) (i : nat) (t t' : Task) :
  l !! i = Some t ->
  count p (<[i := t']> l) + (if p t then 1 else 0)
  = count p l + (if p t' then 1 else 0).
Proof.
  revert i. induction l as [|a l IH]; intros [|i] H; simplify_eq/=; [lia |].
  specialize (IH _ H). lia.
Qed.
End Counting.

Lemma ai_call_dispatching (ts : list Task) :
  count ai_call ts <= count dispatching ts.
Proof.
  induction ts as [|t ts IH]; simpl; [done |].
  destruct t; simpl; lia.
Qed.

(** ** Chunk reassembly *)

Lemma p1_run_app (a b : list (SyncEnv * Label)) (w : World Part001.SessionData) :
  Part001.run (a ++ b) w = Part001.run a w ≫= Part001.run b.
Proof.
  revert w. induction a as [|[env l] a IH]; intros w; simpl; [done |].
  destruct (Part001.step env l w); simpl; [apply IH | done].
Qed.

Lemma p2_run_app (a b : list (SyncEnv * Label)) (w : World Part002.SessionData) :
  Part002.run (a ++ b) w = Part002.run a w ≫= Part002.run b.
Proof.
  revert w. induction a as [|[env l] a IH]; intros w; simpl; [done |].
  destruct (Part002.step env l w); simpl; [apply IH | done].
Qed.

(** ** What a step may change *)

(** Resuming a handler of part_001 touches neither the image nor the pending
    chunks nor the task list, lets nothing escape, and passes the current
    image to [AiProcessing] when it calls it. *)
Lemma p1_resume_frame env t r (w : World Part001.SessionData) next w' :
  Part001.resume env t r w = Some (next, w') ->
  Part001.image (session w') = Part001.image (session w)
  /\ Part001.imageChunks (session w') = Part001.imageChunks (session w)
  /\ tasks w' = tasks w
  /\ unhandled w' = unhandled w
  /\ exists cs, calls w' = calls w ++ cs
       /\ Forall (fun img => img = Part001.image (session w)) (images_passed cs).
Proof.
  intros H. resume_cases H; repeat split;
    first [ by (exists []; rewrite app_nil_r)
          | by (eexists [_]; split; [reflexivity | repeat constructor]) ].
Qed.

Lemma p2_resume_frame env t r (w : World Part002.SessionData) next w' :
  Part002.resume env t r w = Some (next, w') ->
  Part002.transcriber (session w') = Part002.transcriber (session w)
  /\ tasks w' = tasks w
  /\ unhandled w' = unhandled w
  /\ (match t with
      | await_close =>
          Part002.image (session w') = None /\ Part002.imageChunks (session w') = []
      | _ =>
          Part002.image (session w') = Part002.image (session w)
          /\ Part002.imageChunks (session w') = Part002.imageChunks (session w)
      end)
  /\ exists cs, calls w' = calls w ++ cs
       /\ Forall (fun img => img = Part002.image (session w)) (images_passed cs).
Proof.
  intros H. resume_cases H; repeat split;
    first [ by (exists []; rewrite app_nil_r)
          | by (eexists [_]; split; [reflexivity | repeat constructor]) ].
Qed.

(** What one step of part_001 does to the pending chunks. *)
Lemma p1_pending_step env l (w w' : World Part001.SessionData) :
  Part001.step env l w = Some w' ->
  match l with
  | Arrive (client (image_chunk (Bytes b) false)) =>
      Part001.imageChunks (session w') = Part001.imageChunks (session w) ++ [b]
      /\ Part001.imageChunks (session w') <> []
  | Arrive (client (image_chunk (Bytes b) true)) =>
      Part001.imageChunks (session w') = []
      /\ Part001.image (session w')
         = Some (Buffer_concat (Part001.imageChunks (session w) ++ [b]))
  | Arrive (client disconnect) =>
      Part001.imageChunks (session w') = []
      /\ Part001.image (session w') = None
  | _ => Part001.imageChunks (session w') = Part001.imageChunks (session w)
  end.
Proof.
  intros H. destruct l as [[c|u] | i r]; simpl in H.
  - destruct c as [a | a | | | c [|] | m | |]; simplify_eq/=;
      unfold Part001.on_audio_full, Part001.on_text_message,
        Part001.on_image_chunk;
      repeat case_match; simplify_eq/=; try done.
    split; [done |]. intros E. by apply app_eq_nil in E as [_ ?].
  - by simplify_eq.
  - destruct (tasks w !! i) as [t|] eqn:Ht; [| done].
    destruct (Part001.resume env t r w) as [[next w1]|] eqn:Hr; [| done].
    simplify_eq. apply p1_resume_frame in Hr as (_ & Hc & _).
    assert (Part001.imageChunks (session (reschedule i next w1))
            = Part001.imageChunks (session w)) as ->
      by (by destruct next).
    by destruct r.
Qed.

(** What one step of part_002 does to the pending chunks. *)
Lemma p2_pending_step env l (w w' : World Part002.SessionData) :
  Part002.step env l w = Some w' ->
  match l with
  | Arrive (client (image_chunk (Bytes b) false)) =>
      Part002.imageChunks (session w') = Part002.imageChunks (session w) ++ [b]
      /\ Part002.imageChunks (session w') <> []
  | Arrive (client (image_chunk (Bytes b) true)) =>
      Part002.imageChunks (session w') = []
      /\ Part002.image (session w')
         = Some (Buffer_concat (Part002.imageChunks (session w) ++ [b]))
  | Arrive (client disconnect) =>
      match Part002.transcriber (session w) with
      | None => Part002.imageChunks (session w') = []
                /\ Part002.image (session w') = None
      | Some _ => Part002.imageChunks (session w') = Part002.imageChunks (session w)
      end
  | Settle _ (close_settles _) =>
      Part002.imageChunks (session w') = []
      /\ Part002.image (session w') = None
  | _ => Part002.imageChunks (session w') = Part002.imageChunks (session w)
  end.
Proof.
  intros H. destruct l as [[c|u] | i r]; simpl in H.
  - destruct c as [a | a | | | c [|] | m | |]; simplify_eq/=;
      unfold Part002.on_audio_chunk, Part002.on_text_message,
        Part002.on_image_chunk, Part002.on_disconnect;
      repeat case_match; simplify_eq/=; try done.
    split; [done |]. intros E. by apply app_eq_nil in E as [_ ?].
  - simplify_eq. unfold Part002.on_upstream, Part002.on_turn.
    by repeat case_match.
  - destruct (tasks w !! i) as [t|] eqn:Ht; [| done].
    destruct (Part002.resume env t r w) as [[next w1]|] eqn:Hr; [| done].
    simplify_eq.
    assert (session (reschedule i next w1) = session w1) as ->
      by (by destruct next).
    pose proof (p2_resume_frame _ _ _ _ _ _ Hr) as (_ & _ & _ & Hc & _).
    destruct t, r; try done; try (by destruct Hc); by resume_cases Hr.
Qed.





(** Chunks that are not the last only grow the pending sequence. *)
Lemma p1_inner_chunks (cs : list (SyncEnv * Buffer)) (w : World Part001.SessionData) :
  exists w',
    Part001.run (map inner_chunk cs) w = Some w'
    /\ Part001.imageChunks (session w') = Part001.imageChunks (session w) ++ map snd cs
    /\ Part001.image (session w') = Part001.image (session w)
    /\ Part001.isProcessing (session w') = Part001.isProcessing (session w)
    /\ tasks w' = tasks w /\ emitted w' = emitted w
    /\ calls w' = calls w /\ unhandled w' = unhandled w.
Proof.
  revert w. induction cs as [|[env b] cs IH]; intros w; simpl.
  - exists w. rewrite app_nil_r. done.
  - destruct (IH (Part001.on_image_chunk env (Bytes b) false w))
      as (w' & Hrun & Hc & Hi & Hp & Ht & He & Hk & Hu).
    exists w'. rewrite Hrun, Hc, Hi, Hp, Ht, He, Hk, Hu. simpl.
    rewrite <- app_assoc. done.
Qed.

Lemma p2_inner_chunks (cs : list (SyncEnv * Buffer)) (w : World Part002.SessionData) :
  exists w',
    Part002.run (map inner_chunk cs) w = Some w'
    /\ Part002.imageChunks (session w') = Part002.imageChunks (session w) ++ map snd cs
    /\ Part002.image (session w') = Part002.image (session w)
    /\ Part002.isProcessing (session w') = Part002.isProcessing (session w)
    /\ Part002.transcriber (session w') = Part002.transcriber (session w)
    /\ tasks w' = tasks w /\ emitted w' = emitted w
    /\ calls w' = calls w /\ unhandled w' = unhandled w.
Proof.
  revert w. induction cs as [|[env b] cs IH]; intros w; simpl.
  - exists w. rewrite app_nil_r. done.
  - destruct (IH (Part002.on_image_chunk env (Bytes b) false w))
      as (w' & Hrun & Hc & Hi & Hp & Hx & Ht & He & Hk & Hu).
    exists w'. rewrite Hrun, Hc, Hi, Hp, Hx, Ht, He, Hk, Hu. simpl.
    rewrite <- app_assoc. done.
Qed.


(** One upload on part_001, from any session. *)
Lemma image_chunks_reassemble_p1
    (cs : list (SyncEnv * Buffer)) (env : SyncEnv) (b : Buffer)
    (w : World Part001.SessionData) :
  let full := Buffer_concat (Part001.imageChunks (session w) ++ map snd cs ++ [b]) in
  exists w',
    Part001.run (map inner_chunk cs ++ [final_chunk env b]) w = Some w'
    /\ Part001.image (session w') = Some full
    /\ Part001.imageChunks (session w') = []
    /\ emitted w' = emitted w ++ [emit_image_received (length full) (now env)].
Proof.
  intros full.
  destruct (p1_inner_chunks cs w) as (w1 & Hrun & Hc & _ & _ & _ & He & _).
  eexists. rewrite p1_run_app, Hrun. simpl. split; [reflexivity |].
  subst full. simpl. rewrite Hc, He, <- app_assoc. done.
Qed.

(** One upload on part_002, from any session. *)
Lemma image_chunks_reassemble_p2
    (cs : list (SyncEnv * Buffer)) (env : SyncEnv) (b : Buffer)
    (w : World Part002.SessionData) :
  let full := Buffer_concat (Part002.imageChunks (session w) ++ map snd cs ++ [b]) in
  exists w',
    Part002.run (map inner_chunk cs ++ [final_chunk env b]) w = Some w'
    /\ Part002.image (session w') = Some full
    /\ Part002.imageChunks (session w') = []
    /\ emitted w' = emitted w ++ [emit_image_received (length full) (now env)].
Proof.
  intros full.
  destruct (p2_inner_chunks cs w) as (w1 & Hrun & Hc & _ & _ & _ & _ & He & _).
  eexists. rewrite p2_run_app, Hrun. simpl. split; [reflexivity |].
  subst full. simpl. rewrite Hc, He, <- app_assoc. done.
Qed.



(** ** The busy guard *)

(** C3: while part_001's busy flag is set, a [text_message] or [audio_full]
    event is answered with exactly one [error] event of type "busy"; the
    session data ([image], [imageChunks], [isProcessing]), the suspended
    handlers and the collaborator calls are what they were, and nothing
    escapes the handler. *)
Theorem busy_request_is_rejected (env : SyncEnv) (e : ClientEvent)
    (w : World Part001.SessionData) :
  Part001.isProcessing (session w) = true ->
  (exists m, e = text_message m) \/ (exists a, e = audio_full a) ->
  exists w',
    Part001.step env (Arrive (client e)) w = Some w'
    /\ emitted w' = emitted w ++ [emit_error "busy" "Still processing previous request"]
    /\ session w' = session w
    /\ tasks w' = tasks w
    /\ calls w' = calls w
    /\ unhandled w' = unhandled w.
Proof.
  intros Hbusy [[m ->] | [a ->]]; eexists; (split; [reflexivity |]); simpl.
  - unfold Part001.on_text_message. rewrite Hbusy. done.
  - unfold Part001.on_audio_full. rewrite Hbusy. done.
Qed.

Lemma busy_request_is_rejected_witness :
  let w := Part001.arrive (at_time 0) (client (text_message "hi")) Part001.connection in
  Part001.isProcessing (session w) = true
  /\ exists w',
    Part001.step (at_time 1) (Arrive (client (audio_full (Bytes AB)))) w = Some w'
    /\ emitted w' = emitted w ++ [emit_error "busy" "Still processing previous request"]
    /\ session w' = session w
    /\ tasks w' = tasks w
    /\ calls w' = calls w
    /\ unhandled w' = unhandled w.
Proof.
  split; [reflexivity |].
  apply (busy_request_is_rejected (at_time 1) (audio_full (Bytes AB))).
  - reflexivity.
  - right. exists (Bytes AB). reflexivity.
Defined.

(** The same guard in part_002's [text_message] handler. *)
Lemma p2_busy_text_message_is_rejected (env : SyncEnv) (m : string)
    (w : World Part002.SessionData) :
  Part002.isProcessing (session w) = true ->
  Part002.arrive env (client (text_message m)) w
  = emit (emit_error "busy" "Still processing previous request") w.
Proof. intros H. simpl. unfold Part002.on_text_message. by rewrite H. Qed.

(** part_002 has no guard message for a [turn]: while busy it is dropped. *)
Lemma p2_busy_turn_is_dropped (env : SyncEnv) (t : string)
    (w : World Part002.SessionData) :
  Part002.isProcessing (session w) = true ->
  Part002.arrive env (upstream (turn t)) w = w.
Proof.
  intros H. simpl. unfold Part002.on_upstream, Part002.on_turn.
  rewrite H, orb_true_r. by destruct (Part002.transcriber (session w)).
Qed.

(** ** [clear_image] and the pending chunks *)

(** C10: [clear_image] sets the image to null and leaves the pending chunk
    sequence (and the busy flag) as it was; chunks received before it are
    still part of the image that a later terminal chunk produces. *)
Theorem clear_image_keeps_pending_chunks
    (before after : list (SyncEnv * Buffer)) (env env' : SyncEnv) (b : Buffer) :
  (forall w : World Part001.SessionData,
     let w1 := Part001.arrive env (client clear_image) w in
     Part001.image (session w1) = None
     /\ Part001.imageChunks (session w1) = Part001.imageChunks (session w)
     /\ Part001.isProcessing (session w1) = Part001.isProcessing (session w)
     /\ exists w',
       Part001.run (map inner_chunk before ++ [(env, Arrive (client clear_image))]
                    ++ map inner_chunk after ++ [final_chunk env' b]) w = Some w'
       /\ Part001.image (session w')
          = Some (Buffer_concat (Part001.imageChunks (session w)
                                 ++ map snd before ++ map snd after ++ [b])))
  /\ (forall w : World Part002.SessionData,
     let w1 := Part002.arrive env (client clear_image) w in
     Part002.image (session w1) = None
     /\ Part002.imageChunks (session w1) = Part002.imageChunks (session w)
     /\ Part002.isProcessing (session w1) = Part002.isProcessing (session w)
     /\ exists w',
       Part002.run (map inner_chunk before ++ [(env, Arrive (client clear_image))]
                    ++ map inner_chunk after ++ [final_chunk env' b]) w = Some w'
       /\ Part002.image (session w')
          = Some (Buffer_concat (Part002.imageChunks (session w)
                                 ++ map snd before ++ map snd after ++ [b]))).
Proof.
  split; intros w w1; (split; [done |]); (split; [done |]); (split; [done |]).
  - destruct (p1_inner_chunks before w) as (wa & Ha & Hca & _).
    destruct (image_chunks_reassemble_p1 after env' b
                (Part001.on_clear_image wa)) as (w' & Hr & Hi & _).
    exists w'. rewrite p1_run_app, Ha. simpl. split; [exact Hr |].
    rewrite Hi. simpl. rewrite Hca, <- app_assoc. done.
  - destruct (p2_inner_chunks before w) as (wa & Ha & Hca & _).
    destruct (image_chunks_reassemble_p2 after env' b
                (Part002.on_clear_image wa)) as (w' & Hr & Hi & _).
    exists w'. rewrite p2_run_app, Ha. simpl. split; [exact Hr |].
    rewrite Hi. simpl. rewrite Hca, <- app_assoc. done.
Qed.

(** C6, as stated, on part_001: a chunk is pending, [disconnect] arrives, and
    the pending sequence is empty although no terminal chunk came and nothing
    was folded into the image. *)
Lemma disconnect_empties_pending_chunks :
  exists w w',
    Part001.run [inner_chunk (at_time 0, AB)] Part001.connection = Some w
    /\ Part001.imageChunks (session w) = [AB]
    /\ Part001.step (at_time 1) (Arrive (client disconnect)) w = Some w'
    /\ Part001.imageChunks (session w') = []
    /\ Part001.image (session w') = None.
Proof. do 2 eexists. repeat split. Qed.

(** C6, amended: in both session revisions a step leaves the pending chunk
    sequence as it was, with three exceptions.  A well-formed chunk that is
    not the last is appended (so the sequence is not empty afterwards).  A
    well-formed last chunk empties it, and the image is then the
    concatenation of what was pending and of that chunk.  The disconnect
    handler empties it and sets the image to null: part_001 on arrival,
    part_002 on arrival when there is no transcriber and otherwise when its
    [close()] settles. *)
Theorem pending_chunks_step (env : SyncEnv) (l : Label) :
  (forall w w' : World Part001.SessionData,
     Part001.step env l w = Some w' ->
     match l with
     | Arrive (client (image_chunk (Bytes b) false)) =>
         Part001.imageChunks (session w') = Part001.imageChunks (session w) ++ [b]
         /\ Part001.imageChunks (session w') <> []
     | Arrive (client (image_chunk (Bytes b) true)) =>
         Part001.imageChunks (session w') = []
         /\ Part001.image (session w')
            = Some (Buffer_concat (Part001.imageChunks (session w) ++ [b]))
     | Arrive (client disconnect) =>
         Part001.imageChunks (session w') = []
         /\ Part001.image (session w') = None
     | _ => Part001.imageChunks (session w') = Part001.imageChunks (session w)
     end)
  /\ (forall w w' : World Part002.SessionData,
     Part002.step env l w = Some w' ->
     match l with
     | Arrive (client (image_chunk (Bytes b) false)) =>
         Part002.imageChunks (session w') = Part002.imageChunks (session w) ++ [b]
         /\ Part002.imageChunks (session w') <> []
     | Arrive (client (image_chunk (Bytes b) true)) =>
         Part002.imageChunks (session w') = []
         /\ Part002.image (session w')
            = Some (Buffer_concat (Part002.imageChunks (session w) ++ [b]))
     | Arrive (client disconnect) =>
         match Part002.transcriber (session w) with
         | None => Part002.imageChunks (session w') = []
                   /\ Part002.image (session w') = None
         | Some _ => Part002.imageChunks (session w') = Part002.imageChunks (session w)
         end
     | Settle _ (close_settles _) =>
         Part002.imageChunks (session w') = []
         /\ Part002.image (session w') = None
     | _ => Part002.imageChunks (session w') = Part002.imageChunks (session w)
     end).
Proof. split; [apply p1_pending_step | apply p2_pending_step]. Qed.

Lemma pending_chunks_step_witness :
  let w := Part002.on_image_chunk (at_time 0) (Bytes AB) false
             (Part002.connection Part002.connects) in
  let w' := Part002.on_image_chunk (at_time 1) (Bytes CD) true w in
  Part002.step (at_time 1) (Arrive (client (image_chunk (Bytes CD) true))) w = Some w'
  /\ Part002.imageChunks (session w') = []
  /\ Part002.image (session w') = Some (Buffer_concat ([AB] ++ [CD])).
Proof.
  split; [reflexivity |].
  exact (proj2 (pending_chunks_step (at_time 1)
                  (Arrive (client (image_chunk (Bytes CD) true))))
               _ _ eq_refl).
Defined.

(** ** The image handed to the dispatcher *)

Lemma images_passed_app (a b : list Call) :
  images_passed (a ++ b) = images_passed a ++ images_passed b.
Proof. apply omap_app. Qed.

(** Every [AiProcessing] call made by a step of part_001 receives the image
    the session holds when the step starts. *)
Lemma p1_step_calls env l (w w' : World Part001.SessionData) :
  Part001.step env l w = Some w' ->
  exists cs, calls w' = calls w ++ cs
    /\ Forall (fun img => img = Part001.image (session w)) (images_passed cs).
Proof.
  intros H. destruct l as [[c|u] | i r]; simpl in H.
  - destruct c; simplify_eq/=;
      unfold Part001.on_audio_full, Part001.on_text_message,
        Part001.on_image_chunk;
      repeat case_match; simplify_eq/=;
      first [ by (exists []; rewrite app_nil_r)
            | by (eexists [_]; split; [reflexivity | repeat constructor]) ].
  - simplify_eq. exists []. by rewrite app_nil_r.
  - destruct (tasks w !! i) as [t|] eqn:Ht; [| done].
    destruct (Part001.resume env t r w) as [[next w1]|] eqn:Hr; [| done].
    simplify_eq. apply p1_resume_frame in Hr as (_ & _ & _ & _ & Hc).
    by destruct next.
Qed.

Lemma p2_step_calls env l (w w' : World Part002.SessionData) :
  Part002.step env l w = Some w' ->
  exists cs, calls w' = calls w ++ cs
    /\ Forall (fun img => img = Part002.image (session w)) (images_passed cs).
Proof.
  intros H. destruct l as [[c|u] | i r]; simpl in H.
  - destruct c; simplify_eq/=;
      unfold Part002.on_audio_chunk, Part002.on_text_message,
        Part002.on_image_chunk, Part002.on_disconnect;
      repeat case_match; simplify_eq/=;
      first [ by (exists []; rewrite app_nil_r)
            | by (eexists [_]; split; [reflexivity | repeat constructor]) ].
  - simplify_eq. unfold Part002.on_upstream, Part002.on_turn.
    repeat case_match; simplify_eq/=;
      first [ by (exists []; rewrite app_nil_r)
            | by (eexists [_]; split; [reflexivity | repeat constructor]) ].
  - destruct (tasks w !! i) as [t|] eqn:Ht; [| done].
    destruct (Part002.resume env t r w) as [[next w1]|] eqn:Hr; [| done].
    simplify_eq. apply p2_resume_frame in Hr as (_ & _ & _ & _ & Hc).
    by destruct next.
Qed.

(** A session without image stays without image until an upload completes. *)
Lemma p1_step_keeps_no_image env l (w w' : World Part001.SessionData) :
  Part001.step env l w = Some w' ->
  completes_upload l = false ->
  Part001.image (session w) = None ->
  Part001.image (session w') = None.
Proof.
  intros H Hl Hi. destruct l as [[c|u] | i r]; simpl in H.
  - destruct c; simplify_eq/=;
      unfold Part001.on_audio_full, Part001.on_text_message,
        Part001.on_image_chunk;
      repeat case_match; simplify_eq/=; done.
  - by simplify_eq.
  - destruct (tasks w !! i) as [t|] eqn:Ht; [| done].
    destruct (Part001.resume env t r w) as [[next w1]|] eqn:Hr; [| done].
    simplify_eq. apply p1_resume_frame in Hr as (Hc & _).
    destruct next; simpl; congruence.
Qed.

Lemma p2_step_keeps_no_image env l (w w' : World Part002.SessionData) :
  Part002.step env l w = Some w' ->
  completes_upload l = false ->
  Part002.image (session w) = None ->
  Part002.image (session w') = None.
Proof.
  intros H Hl Hi. destruct l as [[c|u] | i r]; simpl in H.
  - destruct c; simplify_eq/=;
      unfold Part002.on_audio_chunk, Part002.on_text_message,
        Part002.on_image_chunk, Part002.on_disconnect;
      repeat case_match; simplify_eq/=; done.
  - simplify_eq. unfold Part002.on_upstream, Part002.on_turn.
    by repeat case_match.
  - destruct (tasks w !! i) as [t|] eqn:Ht; [| done].
    destruct (Part002.resume env t r w) as [[next w1]|] eqn:Hr; [| done].
    simplify_eq. apply p2_resume_frame in Hr as (_ & _ & _ & Hc & _).
    assert (Part002.image (session w1) = None)
      by (destruct t; destruct Hc; congruence).
    by destruct next.
Qed.

Lemma p1_run_no_image tr : forall w w' : World Part001.SessionData,
  no_upload_completes tr = true ->
  Part001.image (session w) = None ->
  Part001.run tr w = Some w' ->
  exists cs, calls w' = calls w ++ cs
    /\ Forall (fun img => img = None) (images_passed cs).
Proof.
  induction tr as [|[env l] tr IH]; intros w w' Hn Hi Hr; simpl in *.
  - simplify_eq. exists []. by rewrite app_nil_r.
  - apply andb_true_iff in Hn as [Hl Hn]. apply negb_true_iff in Hl.
    destruct (Part001.step env l w) as [w1|] eqn:Hs; [| done].
    destruct (p1_step_calls _ _ _ _ Hs) as (c1 & Hc1 & Hf1).
    destruct (IH w1 w' Hn (p1_step_keeps_no_image _ _ _ _ Hs Hl Hi) Hr)
      as (c2 & Hc2 & Hf2).
    exists (c1 ++ c2). rewrite Hc2, Hc1, <- app_assoc. split; [done |].
    rewrite images_passed_app. apply Forall_app. split; [| done].
    by rewrite <- Hi.
Qed.

Lemma p2_run_no_image tr : forall w w' : World Part002.SessionData,
  no_upload_completes tr = true ->
  Part002.image (session w) = None ->
  Part002.run tr w = Some w' ->
  exists cs, calls w' = calls w ++ cs
    /\ Forall (fun img => img = None) (images_passed cs).
Proof.
  induction tr as [|[env l] tr IH]; intros w w' Hn Hi Hr; simpl in *.
  - simplify_eq. exists []. by rewrite app_nil_r.
  - apply andb_true_iff in Hn as [Hl Hn]. apply negb_true_iff in Hl.
    destruct (Part002.step env l w) as [w1|] eqn:Hs; [| done].
    destruct (p2_step_calls _ _ _ _ Hs) as (c1 & Hc1 & Hf1).
    destruct (IH w1 w' Hn (p2_step_keeps_no_image _ _ _ _ Hs Hl Hi) Hr)
      as (c2 & Hc2 & Hf2).
    exists (c1 ++ c2). rewrite Hc2, Hc1, <- app_assoc. split; [done |].
    rewrite images_passed_app. apply Forall_app. split; [| done].
    by rewrite <- Hi.
Qed.

(** C7: in both session revisions [clear_image] emits [image_cleared] and
    leaves the session without image, whatever was uploaded before; from
    then on, as long as no new upload completes, every [AiProcessing] call
    (from [text_message], from [audio_full] once its transcript is there,
    from a [turn]) receives no image; in particular a [text_message] that
    follows at once on an idle session calls [AiProcessing] with no image. *)
Theorem clear_image_then_no_image (env : SyncEnv) (tr : list (SyncEnv * Label)) :
  (forall w : World Part001.SessionData,
     let w1 := Part001.arrive env (client clear_image) w in
     emitted w1 = emitted w ++ [emit_image_cleared]
     /\ Part001.image (session w1) = None
     /\ (forall env' m, Part001.isProcessing (session w) = false ->
           calls (Part001.arrive env' (client (text_message m)) w1)
           = calls w ++ [call_AiProcessing None m])
     /\ (forall w', no_upload_completes tr = true ->
           Part001.run tr w1 = Some w' ->
           exists cs, calls w' = calls w1 ++ cs
             /\ Forall (fun img => img = None) (images_passed cs)))
  /\ (forall w : World Part002.SessionData,
     let w1 := Part002.arrive env (client clear_image) w in
     emitted w1 = emitted w ++ [emit_image_cleared]
     /\ Part002.image (session w1) = None
     /\ (forall env' m, Part002.isProcessing (session w) = false ->
           calls (Part002.arrive env' (client (text_message m)) w1)
           = calls w ++ [call_AiProcessing None m])
     /\ (forall w', no_upload_completes tr = true ->
           Part002.run tr w1 = Some w' ->
           exists cs, calls w' = calls w1 ++ cs
             /\ Forall (fun img => img = None) (images_passed cs))).
Proof.
  split; intros w w1; (split; [done |]); (split; [done |]); split.
  - intros env' m Hb. simpl. unfold Part001.on_text_message. simpl.
    by rewrite Hb.
  - intros w' Hn Hr. by eapply p1_run_no_image.
  - intros env' m Hb. simpl. unfold Part002.on_text_message. simpl.
    by rewrite Hb.
  - intros w' Hn Hr. by eapply p2_run_no_image.
Qed.

Lemma clear_image_then_no_image_witness :
  let w := Part001.on_image_chunk (at_time 0) (Bytes AB) true Part001.connection in
  let w1 := Part001.arrive (at_time 1) (client clear_image) w in
  let tr := [(at_time 2, Arrive (client (text_message "hi")));
             (at_time 3, Settle 0 (AiProcessing_settles (Ok "hello")))] in
  Part001.image (session w) = Some AB
  /\ no_upload_completes tr = true
  /\ exists w', Part001.run tr w1 = Some w'
       /\ images_passed (calls w') = [None]
       /\ exists cs, calls w' = calls w1 ++ cs
            /\ Forall (fun img => img = None) (images_passed cs).
Proof.
  split; [reflexivity |]. split; [reflexivity |].
  eexists. split; [reflexivity |]. split; [reflexivity |].
  apply (proj1 (clear_image_then_no_image (at_time 1)
                  [(at_time 2, Arrive (client (text_message "hi")));
                   (at_time 3, Settle 0 (AiProcessing_settles (Ok "hello")))])
               (Part001.on_image_chunk (at_time 0) (Bytes AB) true Part001.connection));
    reflexivity.
Defined.

(** ** The busy flag as a lock *)

Lemma active_suspend {S : Type} (t : Task) (w : World S) :
  active (suspend t w) = active w + (if dispatching t then 1 else 0).
Proof. unfold active, suspend. simpl. rewrite count_app. simpl. lia. Qed.

(** What resuming does to the flag in part_001: every task it resumes is a
    dispatcher invocation; the flag is untouched while the invocation goes
    on and is reset when it ends. *)
Lemma p1_resume_flag env t r (w : World Part001.SessionData) next w' :
  Part001.resume env t r w = Some (next, w') ->
  dispatching t = true
  /\ p1_task t = true
  /\ match next with
     | Some t' =>
         dispatching t' = true /\ p1_task t' = true
         /\ awaits_left t' < awaits_left t
         /\ Part001.isProcessing (session w') = Part001.isProcessing (session w)
     | None => Part001.isProcessing (session w') = false
     end.
Proof.
  intros H. resume_cases H; repeat split; try lia;
    match goal with o : Origin |- _ => by destruct o end.
Qed.

Lemma p2_resume_flag env t r (w : World Part002.SessionData) next w' :
  Part002.resume env t r w = Some (next, w') ->
  match t with
  | await_close =>
      next = None
      /\ Part002.isProcessing (session w') = Part002.isProcessing (session w)
  | _ =>
      dispatching t = true
      /\ p2_task t = true
      /\ match next with
         | Some t' =>
             dispatching t' = true /\ p2_task t' = true
             /\ awaits_left t' < awaits_left t
             /\ Part002.isProcessing (session w') = Part002.isProcessing (session w)
         | None => Part002.isProcessing (session w') = false
         end
  end.
Proof.
  intros H. resume_cases H; repeat split; try lia;
    match goal with o : Origin |- _ => by destruct o end.
Qed.

Lemma p1_step_flag env l (w w' : World Part001.SessionData) :
  Part001.step env l w = Some w' -> p1_flag_counts w -> p1_flag_counts w'.
Proof.
  unfold p1_flag_counts. intros H Hinv. destruct l as [[c|u] | i r]; simpl in H.
  - destruct c; simplify_eq/=;
      unfold Part001.on_audio_full, Part001.on_text_message,
        Part001.on_image_chunk;
      repeat case_match; simplify_eq/=; try done;
      rewrite ?active_suspend; simpl; try done;
      unfold active in *; simpl in *; first [congruence | lia].
  - by simplify_eq.
  - destruct (tasks w !! i) as [t|] eqn:Ht; [| done].
    destruct (Part001.resume env t r w) as [[next w1]|] eqn:Hr; [| done].
    simplify_eq.
    pose proof (p1_resume_frame _ _ _ _ _ _ Hr) as (_ & _ & Htk & _).
    apply p1_resume_flag in Hr as (Hd & _ & Hn).
    unfold active in *. destruct next as [t'|]; simpl; rewrite Htk.
    + destruct Hn as (Hd' & _ & _ & ->).
      pose proof (count_insert dispatching _ _ _ t' Ht) as Hc.
      rewrite Hd, Hd' in Hc. lia.
    + rewrite Hn. pose proof (count_delete dispatching _ _ _ Ht) as Hc.
      rewrite Hd in Hc. destruct (Part001.isProcessing (session w)); lia.
Qed.

Lemma p2_step_flag env l (w w' : World Part002.SessionData) :
  is_audio_start l = false ->
  Part002.step env l w = Some w' -> p2_flag_counts w -> p2_flag_counts w'.
Proof.
  unfold p2_flag_counts. intros Hl H Hinv.
  destruct l as [[c|u] | i r]; simpl in H.
  - destruct c; simplify_eq/=;
      unfold Part002.on_audio_chunk, Part002.on_text_message,
        Part002.on_image_chunk, Part002.on_disconnect;
      repeat case_match; simplify_eq/=; try done;
      rewrite ?active_suspend; simpl; try done;
      unfold active in *; simpl in *; first [congruence | lia].
  - simplify_eq. unfold Part002.on_upstream, Part002.on_turn.
    destruct (Part002.isProcessing (session w)) eqn:Hp;
      rewrite ?orb_true_r, ?orb_false_r;
      repeat case_match; simplify_eq/=; try done;
      rewrite ?active_suspend; simpl; try done;
      unfold active in *; simpl in *; first [congruence | lia].
  - destruct (tasks w !! i) as [t|] eqn:Ht; [| done].
    destruct (Part002.resume env t r w) as [[next w1]|] eqn:Hr; [| done].
    simplify_eq.
    pose proof (p2_resume_frame _ _ _ _ _ _ Hr) as (_ & Htk & _).
    apply p2_resume_flag in Hr.
    assert (Hcase : (t = await_close /\ next = None
                     /\ Part002.isProcessing (session w1)
                        = Part002.isProcessing (session w))
                    \/ (dispatching t = true
                        /\ match next with
                           | Some t' => dispatching t' = true
                               /\ Part002.isProcessing (session w1)
                                  = Part002.isProcessing (session w)
                           | None => Part002.isProcessing (session w1) = false
                           end)).
    { destruct t; try (right; destruct Hr as (? & _ & Hn); split; [done |];
                       destruct next; [by destruct Hn as (? & _ & _ & ?) | done]).
      left. by destruct Hr. }
    unfold active in *.
    destruct Hcase as [(-> & -> & Hp) | (Hd & Hn)]; simpl.
    + rewrite Htk, Hp. pose proof (count_delete dispatching _ _ _ Ht) as Hc.
      simpl in Hc. lia.
    + destruct next as [t'|]; simpl; rewrite Htk.
      * destruct Hn as (Hd' & ->).
        pose proof (count_insert dispatching _ _ _ t' Ht) as Hc.
        rewrite Hd, Hd' in Hc. lia.
      * rewrite Hn. pose proof (count_delete dispatching _ _ _ Ht) as Hc.
        rewrite Hd in Hc. destruct (Part002.isProcessing (session w)); lia.
Qed.

Lemma p1_run_flag tr : forall w w' : World Part001.SessionData,
  Part001.run tr w = Some w' -> p1_flag_counts w -> p1_flag_counts w'.
Proof.
  induction tr as [|[env l] tr IH]; intros w w' Hr Hinv; simpl in Hr.
  - by simplify_eq.
  - destruct (Part001.step env l w) as [w1|] eqn:Hs; [| done].
    eauto using p1_step_flag.
Qed.

Lemma p2_run_flag tr : forall w w' : World Part002.SessionData,
  no_audio_start tr = true ->
  Part002.run tr w = Some w' -> p2_flag_counts w -> p2_flag_counts w'.
Proof.
  induction tr as [|[env l] tr IH]; intros w w' Hn Hr Hinv; simpl in *.
  - by simplify_eq.
  - apply andb_true_iff in Hn as [Hl Hn]. apply negb_true_iff in Hl.
    destruct (Part002.step env l w) as [w1|] eqn:Hs; [| done].
    eauto using p2_step_flag.
Qed.

Lemma flag_bounds_in_flight {S : Type} (w : World S) (b : bool) :
  active w = (if b then 1 else 0) -> in_flight w <= 1 /\ active w <= 1.
Proof.
  intros H. pose proof (ai_call_dispatching (tasks w)).
  unfold in_flight, active in *. destruct b; lia.
Qed.

(** C2, as stated, on [src/server.js]: two [text_message] events, and two
    [AiProcessing] calls are in flight on the one connection. *)
Lemma server_js_two_requests_in_flight :
  exists img w,
    ServerJs.run [(at_time 0, Arrive (client (text_message "hi")));
                  (at_time 1, Arrive (client (text_message "yo")))]
      None (ServerJs.connection ServerJs.connects) = Some (img, w)
    /\ calls w = [call_AiProcessing None "hi"; call_AiProcessing None "yo"]
    /\ in_flight w = 2.
Proof. do 2 eexists. split; [reflexivity |]. split; reflexivity. Qed.

(** In part_002 an [audio_start] between two requests resets the flag, and
    the second request starts while the first is in flight. *)
Lemma p2_audio_start_opens_the_guard :
  exists w,
    Part002.run [(at_time 0, Arrive (client (text_message "hi")));
                 (at_time 1, Arrive (client audio_start));
                 (at_time 2, Arrive (client (text_message "yo")))]
      (Part002.connection Part002.connects) = Some w
    /\ in_flight w = 2.
Proof. eexists. split; reflexivity. Qed.

(** C2, amended: in the revisions that keep a busy flag, whatever events
    arrive and however the awaited promises settle, at most one handler is
    past the guard and at most one [AiProcessing]/[textToAudio] call is in
    flight on a connection: in part_001 for every trace, in part_002 for
    every trace without [audio_start]. *)
Theorem one_request_in_flight (tr : list (SyncEnv * Label)) :
  (forall w, Part001.run tr Part001.connection = Some w ->
     in_flight w <= 1 /\ active w <= 1)
  /\ (forall s w, no_audio_start tr = true ->
        Part002.run tr (Part002.connection s) = Some w ->
        in_flight w <= 1 /\ active w <= 1).
Proof.
  split.
  - intros w Hr. eapply flag_bounds_in_flight.
    eapply p1_run_flag; [exact Hr | reflexivity].
  - intros s w Hn Hr. eapply flag_bounds_in_flight.
    eapply p2_run_flag; [exact Hn | exact Hr | by destruct s].
Qed.

Lemma one_request_in_flight_witness :
  let tr := [(at_time 0, Arrive (upstream (turn "what is this")));
             (at_time 1, Arrive (client (text_message "hi")));
             (at_time 2, Settle 0 (AiProcessing_settles (Ok "a cat")))] in
  no_audio_start tr = true
  /\ exists w, Part002.run tr (Part002.connection Part002.connects) = Some w
       /\ in_flight w = 1
       /\ in_flight w <= 1 /\ active w <= 1.
Proof.
  split; [reflexivity |]. eexists. split; [reflexivity |].
  split; [reflexivity |].
  apply (proj2 (one_request_in_flight
                  [(at_time 0, Arrive (upstream (turn "what is this")));
                   (at_time 1, Arrive (client (text_message "hi")));
                   (at_time 2, Settle 0 (AiProcessing_settles (Ok "a cat")))])
               Part002.connects); reflexivity.
Defined.

(** ** The flag after an invocation *)

Lemma lookup_slot (l : list Task) (t : Task) : (l ++ [t]) !! length l = Some t.
Proof. by apply list_lookup_middle. Qed.

Lemma insert_slot (l : list Task) (t t' : Task) :
  <[length l := t']> (l ++ [t]) = l ++ [t'].
Proof. induction l as [|a l IH]; simpl; [done | by rewrite IH]. Qed.

Lemma delete_slot (l : list Task) (t : Task) : delete (length l) (l ++ [t]) = l.
Proof. induction l as [|a l IH]; simpl; [done | by rewrite IH]. Qed.

(** With the settlement its promise asks for, a suspended invocation of
    part_001 always resumes. *)
Lemma p1_resume_total env o t (w : World Part001.SessionData) :
  p1_task t = true ->
  exists next w', Part001.resume env t (settlement_for o t) w = Some (next, w').
Proof.
  intros Ht. destruct t as [| | | [] | [] ? |]; try done; simpl;
    repeat case_match; eauto.
Qed.

Lemma p2_resume_total env o t (w : World Part002.SessionData) :
  p2_task t = true ->
  exists next w', Part002.resume env t (settlement_for o t) w = Some (next, w').
Proof.
  intros Ht. destruct t as [| | | [] | [] ? |]; try done; simpl;
    repeat case_match; eauto.
Qed.

(** Settled as the oracle says, an invocation of part_001 ends within the
    number of awaits it has left, with the flag reset and its slot freed. *)
Lemma p1_drive_ends n : forall env o t l (w : World Part001.SessionData),
  tasks w = l ++ [t] -> p1_task t = true -> awaits_left t <= n ->
  let w2 := drive Part001.step n env o (length l) w in
  Part001.isProcessing (session w2) = false /\ tasks w2 = l.
Proof.
  induction n as [|n IH]; intros env o t l w Htk Ht Hn.
  - destruct t; simpl in Hn; lia.
  - simpl. rewrite Htk, lookup_slot.
    destruct (p1_resume_total env o t w Ht) as (next & w1 & Hr). rewrite Hr.
    pose proof (p1_resume_frame _ _ _ _ _ _ Hr) as (_ & _ & Htk1 & _).
    apply p1_resume_flag in Hr as (_ & _ & Hnext).
    rewrite Htk in Htk1. destruct next as [t'|]; simpl; rewrite Htk1.
    + rewrite insert_slot, !length_app, Nat.ltb_irrefl.
      destruct Hnext as (_ & Ht' & Hlt & _).
      apply (IH env o t'); [done | done | lia].
    + rewrite delete_slot, length_app. simpl.
      destruct (Nat.ltb_spec (length l) (length l + 1)); [| lia].
      done.
Qed.

Lemma p2_drive_ends n : forall env o t l (w : World Part002.SessionData),
  tasks w = l ++ [t] -> p2_task t = true -> awaits_left t <= n ->
  let w2 := drive Part002.step n env o (length l) w in
  Part002.isProcessing (session w2) = false /\ tasks w2 = l.
Proof.
  induction n as [|n IH]; intros env o t l w Htk Ht Hn.
  - destruct t; simpl in Hn; lia.
  - simpl. rewrite Htk, lookup_slot.
    destruct (p2_resume_total env o t w Ht) as (next & w1 & Hr). rewrite Hr.
    pose proof (p2_resume_frame _ _ _ _ _ _ Hr) as (_ & Htk1 & _).
    apply p2_resume_flag in Hr.
    assert (Hnext : match next with
                    | Some t' => p2_task t' = true /\ awaits_left t' < awaits_left t
                    | None => Part002.isProcessing (session w1) = false
                    end).
    { destruct t; try done; destruct Hr as (_ & _ & Hx);
        destruct next; [by destruct Hx as (_ & ? & ? & _) | done
                       | by destruct Hx as (_ & ? & ? & _) | done]. }
    rewrite Htk in Htk1. destruct next as [t'|]; simpl; rewrite Htk1.
    + rewrite insert_slot, !length_app, Nat.ltb_irrefl.
      destruct Hnext as (Ht' & Hlt).
      apply (IH env o t'); [done | done | lia].
    + rewrite delete_slot, length_app. simpl.
      destruct (Nat.ltb_spec (length l) (length l + 1)); [| lia].
      done.
Qed.

Lemma p1_idle_accepts (w : World Part001.SessionData) :
  Part001.isProcessing (session w) = false -> p1_accepts w.
Proof.
  intros H env m. simpl. unfold Part001.on_text_message. by rewrite H.
Qed.

Lemma p2_idle_accepts (w : World Part002.SessionData) :
  Part002.isProcessing (session w) = false -> p2_accepts w.
Proof.
  intros H env m. simpl. unfold Part002.on_text_message. by rewrite H.
Qed.

(** C4: in both session revisions, when a dispatcher invocation runs to its
    end the busy flag is false and the next [text_message] passes the guard.
    This holds at the step where a resumed invocation ends, whatever else
    happened while it was suspended and whether its last promise was
    fulfilled or rejected; and from an idle session every invocation
    ([text_message] and [audio_full] in part_001, [text_message] and a
    [turn] with a transcript in part_002) does run to its end, within five
    settlements, whatever the outcome of each collaborator, leaving the flag
    false and no handler suspended in its place. *)
Theorem busy_flag_reset_on_completion (env : SyncEnv) (o : Oracle) :
  (forall i r t (w w' : World Part001.SessionData),
     tasks w !! i = Some t -> dispatching t = true ->
     Part001.step env (Settle i r) w = Some w' -> ended w w' ->
     Part001.isProcessing (session w') = false /\ p1_accepts w')
  /\ (forall e (w : World Part001.SessionData),
     Part001.isProcessing (session w) = false ->
     (exists m, e = text_message m) \/ (exists a, e = audio_full a) ->
     let w2 := drive Part001.step 5 env o (length (tasks w))
                 (Part001.arrive env (client e) w) in
     Part001.isProcessing (session w2) = false
     /\ tasks w2 = tasks w /\ p1_accepts w2)
  /\ (forall i r t (w w' : World Part002.SessionData),
     tasks w !! i = Some t -> dispatching t = true ->
     Part002.step env (Settle i r) w = Some w' -> ended w w' ->
     Part002.isProcessing (session w') = false /\ p2_accepts w')
  /\ (forall e (w : World Part002.SessionData),
     Part002.isProcessing (session w) = false ->
     (exists m, e = client (text_message m))
     \/ (exists t, e = upstream (turn t) /\ truthy t = true
                   /\ Part002.transcriber (session w) <> None) ->
     let w2 := drive Part002.step 5 env o (length (tasks w))
                 (Part002.arrive env e w) in
     Part002.isProcessing (session w2) = false
     /\ tasks w2 = tasks w /\ p2_accepts w2).
Proof.
  split; [| split; [| split]].
  - intros i r t w w' Ht Hd Hs He. unfold ended in He. simpl in Hs.
    rewrite Ht in Hs.
    destruct (Part001.resume env t r w) as [[next w1]|] eqn:Hr; [| done].
    simplify_eq.
    pose proof (p1_resume_frame _ _ _ _ _ _ Hr) as (_ & _ & Htk & _).
    apply p1_resume_flag in Hr as (_ & _ & Hn).
    destruct next as [t'|]; simpl in *.
    + rewrite length_insert, Htk in He. lia.
    + split; [done |]. by apply p1_idle_accepts.
  - intros e w Hidle He w2.
    assert (Part001.isProcessing (session w2) = false /\ tasks w2 = tasks w)
      as [H1 H2].
    { subst w2. destruct He as [[m ->] | [[b|m] ->]];
        unfold Part001.arrive, Part001.on_text_message, Part001.on_audio_full;
        rewrite Hidle.
      - eapply p1_drive_ends; [reflexivity | reflexivity | simpl; lia].
      - eapply p1_drive_ends; [reflexivity | reflexivity | simpl; lia].
      - simpl. by rewrite lookup_ge_None_2. }
    split; [done |]. split; [done |]. by apply p1_idle_accepts.
  - intros i r t w w' Ht Hd Hs He. unfold ended in He. simpl in Hs.
    rewrite Ht in Hs.
    destruct (Part002.resume env t r w) as [[next w1]|] eqn:Hr; [| done].
    simplify_eq.
    pose proof (p2_resume_frame _ _ _ _ _ _ Hr) as (_ & Htk & _).
    apply p2_resume_flag in Hr.
    destruct next as [t'|]; simpl in *.
    + rewrite length_insert, Htk in He. lia.
    + assert (Part002.isProcessing (session w1) = false)
        by (destruct t; try done; by destruct Hr as (_ & _ & ?)).
      split; [done |]. by apply p2_idle_accepts.
  - intros e w Hidle He w2.
    assert (Part002.isProcessing (session w2) = false /\ tasks w2 = tasks w)
      as [H1 H2].
    { subst w2. destruct He as [[m ->] | (t & -> & Ht & Hx)];
        unfold Part002.arrive, Part002.on_text_message, Part002.on_upstream,
          Part002.on_turn.
      - rewrite Hidle. eapply p2_drive_ends; [reflexivity | reflexivity | simpl; lia].
      - destruct (Part002.transcriber (session w)); [| done].
        rewrite Hidle, Ht. eapply p2_drive_ends; [reflexivity | reflexivity | simpl; lia]. }
    split; [done |]. split; [done |]. by apply p2_idle_accepts.
Qed.

Lemma busy_flag_reset_on_completion_witness :
  let o := {| upload_result := Ok "https://cdn/upload/1";
              create_result := Ok "tr-1";
              wait_result := Ok (Some "what is this");
              AiProcessing_result := Ok "a cat";
              generateContent_result := Throw "quota exceeded";
              debug_save_audio := false;
              saveWaveFile_result := Ok tt;
              close_result := Ok tt |} in
  let w := Part001.connection in
  let w2 := drive Part001.step 5 (at_time 7) o (length (tasks w))
              (Part001.arrive (at_time 7) (client (audio_full (Bytes AB))) w) in
  Part001.isProcessing (session w) = false
  /\ emitted w2 = [emit_error "full_audio" "quota exceeded"]
  /\ Part001.isProcessing (session w2) = false
  /\ tasks w2 = tasks w /\ p1_accepts w2.
Proof.
  split; [reflexivity |]. split; [reflexivity |].
  apply (proj1 (proj2 (busy_flag_reset_on_completion (at_time 7)
           {| upload_result := Ok "https://cdn/upload/1";
              create_result := Ok "tr-1";
              wait_result := Ok (Some "what is this");
              AiProcessing_result := Ok "a cat";
              generateContent_result := Throw "quota exceeded";
              debug_save_audio := false;
              saveWaveFile_result := Ok tt;
              close_result := Ok tt |}))
         (audio_full (Bytes AB)) Part001.connection).
  - reflexivity.
  - right. exists (Bytes AB). reflexivity.
Defined.

(** ** Sessions next to each other *)

(** C5 on [src/server.js]: two connections A and B.  B sends a text message.
    When nothing else happens, [AiProcessing] is called for B without image;
    when A has uploaded an image before, the same message of B is processed
    with A's image.  The two runs differ only in an event of A. *)
Theorem server_js_image_crosses_sessions :
  let p0 := ServerJs.connect "B" ServerJs.connects
              (ServerJs.connect "A" ServerJs.connects ServerJs.boot) in
  let upload_on_A :=
    (at_time 0, "A", Arrive (client (image_chunk (Bytes AB) true))) in
  let text_on_B :=
    (at_time 1, "B", Arrive (client (text_message "what is this"))) in
  (ServerJs.observed "B" <$> ServerJs.deliver_all [text_on_B] p0)
  = Some (Some ([], [call_AiProcessing None "what is this"]))
  /\ (ServerJs.observed "B" <$> ServerJs.deliver_all [upload_on_A; text_on_B] p0)
     = Some (Some ([], [call_AiProcessing (Some AB) "what is this"])).
Proof. split; vm_compute; reflexivity. Qed.

(** With [sessionData] the connection of a socket evolves as if it were
    alone: its world after a trace of the whole process is its world after
    the labels addressed to it. *)
Lemma p1_sessions_isolated tr :
  forall (p p' : gmap string (World Part001.SessionData)) id w,
    Part001.deliver_all tr p = Some p' -> p !! id = Some w ->
    exists w', Part001.run (project id tr) w = Some w' /\ p' !! id = Some w'.
Proof.
  induction tr as [|[[env id'] l] tr IH]; intros p p' id w Hd Hw; simpl in *.
  - simplify_eq. eauto.
  - unfold Part001.deliver in Hd.
    destruct (p !! id') as [w0|] eqn:H0; [| done].
    destruct (Part001.step env l w0) as [w1|] eqn:Hs; [| done].
    case_decide as Hid; simpl.
    + subst id'. simplify_eq. rewrite Hs.
      eapply IH; [exact Hd | apply lookup_insert_eq].
    + eapply IH; [exact Hd |]. by rewrite lookup_insert_ne.
Qed.

Lemma p2_sessions_isolated tr :
  forall (p p' : gmap string (World Part002.SessionData)) id w,
    Part002.deliver_all tr p = Some p' -> p !! id = Some w ->
    exists w', Part002.run (project id tr) w = Some w' /\ p' !! id = Some w'.
Proof.
  induction tr as [|[[env id'] l] tr IH]; intros p p' id w Hd Hw; simpl in *.
  - simplify_eq. eauto.
  - unfold Part002.deliver in Hd.
    destruct (p !! id') as [w0|] eqn:H0; [| done].
    destruct (Part002.step env l w0) as [w1|] eqn:Hs; [| done].
    case_decide as Hid; simpl.
    + subst id'. simplify_eq. rewrite Hs.
      eapply IH; [exact Hd | apply lookup_insert_eq].
    + eapply IH; [exact Hd |]. by rewrite lookup_insert_ne.
Qed.

(** Two runs of part_001 or part_002 that agree on the labels of one socket
    leave that socket's connection in the same world. *)
Lemma sessions_do_not_interfere id tr1 tr2 :
  project id tr1 = project id tr2 ->
  (forall (p p1 p2 : gmap string (World Part001.SessionData)),
     is_Some (p !! id) ->
     Part001.deliver_all tr1 p = Some p1 -> Part001.deliver_all tr2 p = Some p2 ->
     p1 !! id = p2 !! id)
  /\ (forall (p p1 p2 : gmap string (World Part002.SessionData)),
     is_Some (p !! id) ->
     Part002.deliver_all tr1 p = Some p1 -> Part002.deliver_all tr2 p = Some p2 ->
     p1 !! id = p2 !! id).
Proof.
  intros Hp. split; intros p p1 p2 [w Hw] H1 H2.
  - destruct (p1_sessions_isolated _ _ _ _ _ H1 Hw) as (w1 & Hr1 & ->).
    destruct (p1_sessions_isolated _ _ _ _ _ H2 Hw) as (w2 & Hr2 & ->).
    congruence.
  - destruct (p2_sessions_isolated _ _ _ _ _ H1 Hw) as (w1 & Hr1 & ->).
    destruct (p2_sessions_isolated _ _ _ _ _ H2 Hw) as (w2 & Hr2 & ->).
    congruence.
Qed.

(** ** Failures at the handler boundary *)

(** What a resumed handler of part_001 emits: at most one event; an [error]
    only of a type of the taxonomy; exactly one [error] when the awaited
    promise was rejected. *)
Lemma p1_resume_emits env t r i (w : World Part001.SessionData) next w' :
  Part001.resume env t r w = Some (next, w') ->
  exists es, emitted w' = emitted w ++ es
    /\ (forall ty msg, In (emit_error ty msg) es -> In ty taxonomy)
    /\ (p1_raises (Settle i r) w = true ->
        exists ty msg, es = [emit_error ty msg] /\ In ty taxonomy).
Proof.
  intros H. unfold p1_raises.
  resume_cases H;
    repeat match goal with
           | E : Part001.textToAudio _ _ _ = _ |- _ => rewrite E; clear E
           | o : Origin |- _ => destruct o; simplify_eq/=
           end;
    first [ emits_nothing | emits_one ].
Qed.

Lemma p2_resume_emits env t r i (w : World Part002.SessionData) next w' :
  Part002.resume env t r w = Some (next, w') ->
  exists es, emitted w' = emitted w ++ es
    /\ (forall ty msg, In (emit_error ty msg) es -> In ty taxonomy)
    /\ (p2_raises (Settle i r) w = true ->
        exists ty msg, es = [emit_error ty msg] /\ In ty taxonomy).
Proof.
  intros H. unfold p2_raises.
  resume_cases H;
    repeat match goal with
           | E : Part002.textToAudio _ _ _ = _ |- _ => rewrite E; clear E
           | o : Origin |- _ => destruct o; simplify_eq/=
           end;
    first [ emits_nothing | emits_one ].
Qed.

(** C8, as stated, on [src/server.js]: [AiProcessing] rejects and the handler
    ends without any event for the client; [textToAudio] fails and the
    client receives the reply with an empty audio buffer instead of an
    [error] event. *)
Lemma server_js_failures_are_not_reported :
  (exists img w,
     ServerJs.run [(at_time 0, Arrive (client (text_message "hi")));
                   (at_time 1, Settle 0 (AiProcessing_settles (Throw "model overloaded")))]
       None (ServerJs.connection ServerJs.connects) = Some (img, w)
     /\ tasks w = [] /\ emitted w = [])
  /\ (exists img w,
     ServerJs.run [(at_time 0, Arrive (client (text_message "hi")));
                   (at_time 1, Settle 0 (AiProcessing_settles (Ok "hello")));
                   (at_time 2, Settle 0 (textToAudio_runs (Throw "tts down") false (Ok tt)))]
       None (ServerJs.connection ServerJs.connects) = Some (img, w)
     /\ tasks w = []
     /\ emitted w = [emit_ai_text_response "hello"; emit_ai_response_audio EmptyAudio]).
Proof. split; do 2 eexists; (split; [reflexivity |]); split; reflexivity. Qed.

(** One step of part_001: nothing escapes, [error] events carry a type of
    the taxonomy, a failure emits exactly one [error]. *)
Lemma p1_step_emits env l (w w' : World Part001.SessionData) :
  Part001.step env l w = Some w' ->
  unhandled w' = unhandled w
  /\ exists es, emitted w' = emitted w ++ es
       /\ (forall ty msg, In (emit_error ty msg) es -> In ty taxonomy)
       /\ (p1_raises l w = true ->
           exists ty msg, es = [emit_error ty msg] /\ In ty taxonomy).
Proof.
  intros H. destruct l as [[c|u] | i r]; simpl in H.
  - destruct c; simplify_eq/=;
      unfold Part001.on_audio_full, Part001.on_text_message,
        Part001.on_image_chunk, Part001.catch_finally;
      repeat case_match; simplify_eq/=; (split; [done |]);
      first [ emits_nothing | emits_one ].
  - simplify_eq. split; [done |]. emits_nothing.
  - destruct (tasks w !! i) as [t|] eqn:Ht; [| done].
    destruct (Part001.resume env t r w) as [[next w1]|] eqn:Hr; [| done].
    simplify_eq.
    pose proof (p1_resume_frame _ _ _ _ _ _ Hr) as (_ & _ & _ & Hu & _).
    apply (p1_resume_emits _ _ _ i) in Hr.
    by destruct next.
Qed.

Lemma p2_step_emits env l (w w' : World Part002.SessionData) :
  Part002.step env l w = Some w' ->
  unhandled w' = unhandled w
  /\ exists es, emitted w' = emitted w ++ es
       /\ (forall ty msg, In (emit_error ty msg) es -> In ty taxonomy)
       /\ (p2_raises l w = true ->
           exists ty msg, es = [emit_error ty msg] /\ In ty taxonomy).
Proof.
  intros H. destruct l as [[c|u] | i r]; simpl in H.
  - destruct c; simplify_eq/=;
      unfold Part002.on_audio_chunk, Part002.on_text_message,
        Part002.on_image_chunk, Part002.on_disconnect;
      repeat case_match; simplify_eq/=; (split; [done |]);
      first [ emits_nothing | emits_one ].
  - simplify_eq. unfold Part002.on_upstream, Part002.on_turn.
    repeat case_match; simplify_eq/=; (split; [done |]);
      first [ emits_nothing | emits_one ].
  - destruct (tasks w !! i) as [t|] eqn:Ht; [| done].
    destruct (Part002.resume env t r w) as [[next w1]|] eqn:Hr; [| done].
    simplify_eq.
    pose proof (p2_resume_frame _ _ _ _ _ _ Hr) as (_ & _ & Hu & _).
    apply (p2_resume_emits _ _ _ i) in Hr.
    by destruct next.
Qed.

(** A failing step of part_001 emits the event its failure is to be
    reported with. *)
Lemma p1_step_reported env l (w w' : World Part001.SessionData) :
  Part001.step env l w = Some w' ->
  p1_raises l w = true ->
  exists e, p1_reported l w = Some e /\ emitted w' = emitted w ++ [e].
Proof.
  intros H Hr. destruct l as [[c|u] | i r]; simpl in H.
  - destruct c; simplify_eq/=;
      unfold Part001.on_audio_full, Part001.on_text_message,
        Part001.on_image_chunk, Part001.catch_finally;
      repeat case_match; simplify_eq/=; eauto.
  - done.
  - unfold p1_reported. unfold p1_raises in Hr.
    destruct (tasks w !! i) as [t|] eqn:Ht; [| done].
    destruct (Part001.resume env t r w) as [[next w1]|] eqn:Hs; [| done].
    simplify_eq.
    assert (emitted (reschedule i next w1) = emitted w1) as ->
      by (by destruct next).
    clear Ht. resume_cases Hs;
      repeat match goal with
             | E : Part001.textToAudio _ _ _ = _ |- _ =>
                 rewrite E in *; clear E
             | o : Origin |- _ => destruct o; simplify_eq/=
             end;
      simplify_eq; eauto.
Qed.

Lemma p2_step_reported env l (w w' : World Part002.SessionData) :
  Part002.step env l w = Some w' ->
  p2_raises l w = true ->
  exists e, p2_reported l w = Some e /\ emitted w' = emitted w ++ [e].
Proof.
  intros H Hr. destruct l as [[c|u] | i r]; simpl in H.
  - destruct c; simplify_eq/=;
      unfold Part002.on_audio_chunk, Part002.on_text_message,
        Part002.on_image_chunk, Part002.on_disconnect;
      repeat case_match; simplify_eq/=; eauto.
  - simplify_eq. unfold Part002.on_upstream. simpl in *.
    destruct u; try done. destruct (Part002.transcriber (session w)); eauto.
    done.
  - unfold p2_reported. unfold p2_raises in Hr.
    destruct (tasks w !! i) as [t|] eqn:Ht; [| done].
    destruct (Part002.resume env t r w) as [[next w1]|] eqn:Hs; [| done].
    simplify_eq.
    assert (emitted (reschedule i next w1) = emitted w1) as ->
      by (by destruct next).
    clear Ht. resume_cases Hs;
      repeat match goal with
             | E : Part002.textToAudio _ _ _ = _ |- _ =>
                 rewrite E in *; clear E
             | o : Origin |- _ => destruct o; simplify_eq/=
             end;
      simplify_eq; eauto.
Qed.

(** C8, amended: in the two session revisions no step lets an error escape
    its handler, a step emits [error] events only with a type of the
    taxonomy, and each of the failures the revision reports makes its step
    emit exactly one event, the [error] of its kind: "busy" for a
    [text_message] (in part_001 also an [audio_full]) while busy,
    "image_upload" for a malformed image chunk, "full_audio" for a malformed
    [audio_full] payload or a rejected upload, transcript, [AiProcessing] or
    [textToAudio] of an [audio_full] request, "text_processing" for a
    rejected [AiProcessing] or [textToAudio] of a [text_message] request,
    "ai_processing" for one of a [turn], "stt" for an error of the
    transcriber; a failing set-up of part_002 emits one [error] of type
    "initialization". *)
Theorem failures_become_error_events (env : SyncEnv) (l : Label) :
  (forall w w' : World Part001.SessionData,
     Part001.step env l w = Some w' ->
     unhandled w' = unhandled w
     /\ exists es, emitted w' = emitted w ++ es
          /\ (forall ty msg, In (emit_error ty msg) es -> In ty taxonomy)
          /\ (p1_raises l w = true ->
              exists ty msg, es = [emit_error ty msg] /\ In ty taxonomy)
          /\ (p1_raises l w = true ->
              exists ty msg,
                p1_reported l w = Some (emit_error ty msg)
                /\ es = [emit_error ty msg]))
  /\ (forall w w' : World Part002.SessionData,
     Part002.step env l w = Some w' ->
     unhandled w' = unhandled w
     /\ exists es, emitted w' = emitted w ++ es
          /\ (forall ty msg, In (emit_error ty msg) es -> In ty taxonomy)
          /\ (p2_raises l w = true ->
              exists ty msg, es = [emit_error ty msg] /\ In ty taxonomy)
          /\ (p2_raises l w = true ->
              exists ty msg,
                p2_reported l w = Some (emit_error ty msg)
                /\ es = [emit_error ty msg]))
  /\ (forall m,
     emitted (Part002.connection (Part002.transcriber_throws m))
       = [emit_error "initialization" m]
     /\ emitted (Part002.connection (Part002.connect_rejects m))
       = [emit_error "initialization" m]
     /\ unhandled (Part002.connection (Part002.transcriber_throws m)) = []
     /\ unhandled (Part002.connection (Part002.connect_rejects m)) = []
     /\ In "initialization" taxonomy).
Proof.
  split; [| split].
  - intros w w' H.
    destruct (p1_step_emits _ _ _ _ H) as (Hu & es & He & Ht & Hr).
    split; [done |]. exists es. repeat split; try done.
    intros Hx. destruct (Hr Hx) as (ty & msg & -> & _).
    destruct (p1_step_reported _ _ _ _ H Hx) as (e & Hrep & He').
    rewrite He in He'. apply app_inv_head in He'. simplify_eq. eauto.
  - intros w w' H.
    destruct (p2_step_emits _ _ _ _ H) as (Hu & es & He & Ht & Hr).
    split; [done |]. exists es. repeat split; try done.
    intros Hx. destruct (Hr Hx) as (ty & msg & -> & _).
    destruct (p2_step_reported _ _ _ _ H Hx) as (e & Hrep & He').
    rewrite He in He'. apply app_inv_head in He'. simplify_eq. eauto.
  - intros m. repeat split. in_taxonomy.
Qed.

Lemma failures_become_error_events_witness :
  let w := Part002.arrive (at_time 0) (upstream (turn "what is this"))
             (Part002.connection Part002.connects) in
  let l := Settle 0 (AiProcessing_settles (Throw "model overloaded")) in
  exists w',
    Part002.step (at_time 1) l w = Some w'
    /\ p2_raises l w = true
    /\ p2_reported l w
       = Some (emit_error "ai_processing" "Failed to process your request")
    /\ emitted w' = [emit_error "ai_processing" "Failed to process your request"]
    /\ unhandled w' = unhandled w
    /\ exists es, emitted w' = emitted w ++ es
         /\ (forall ty msg, In (emit_error ty msg) es -> In ty taxonomy)
         /\ (p2_raises l w = true ->
             exists ty msg, es = [emit_error ty msg] /\ In ty taxonomy)
         /\ (p2_raises l w = true ->
             exists ty msg,
               p2_reported l w = Some (emit_error ty msg)
               /\ es = [emit_error ty msg]).
Proof.
  eexists. split; [reflexivity |]. split; [reflexivity |].
  split; [reflexivity |]. split; [reflexivity |].
  apply (proj1 (proj2 (failures_become_error_events (at_time 1)
           (Settle 0 (AiProcessing_settles (Throw "model overloaded"))))));
    reflexivity.
Defined.

(** ** Closing the transcriber on disconnect *)





(** * Further facts *)

(** ** The controller *)










(** X2: the request always starts with one user message holding exactly the
    caller's text; every message has the role "user"; an image part occurs
    exactly when an image object was passed, also an empty one, and carries
    its bytes; with an image there are two messages, otherwise one. *)
Theorem build_messages_shape (img : option Buffer) (message : string) :
  let ms := AiAgentController.build_messages img message in
  hd_error ms
  = Some (AiAgentController.MkMessage "user" [AiAgentController.text_part message])
  /\ Forall (fun m => AiAgentController.role m = "user") ms
  /\ (forall b,
        In (AiAgentController.image_part (AiAgentController.data_image_png_base64 b))
           (all_parts ms)
        <-> img = Some b)
  /\ length ms = match img with Some _ => 2 | None => 1 end.
Proof.
  destruct img as [b0|]; simpl.
  - split; [done |]. split; [by repeat constructor |]. split; [| done].
    intros b. unfold all_parts. simpl. split.
    + intros [E | [E | [E | []]]]; by simplify_eq.
    + intros E. simplify_eq. tauto.
  - split; [done |]. split; [by repeat constructor |]. split; [| done].
    intros b. unfold all_parts. simpl. split.
    + intros [E | []]. by simplify_eq.
    + intros E. by simplify_eq.
Qed.

(** ** [textToAudio] in the three revisions *)

(** X3: [textToAudio] is the same function in part_001 and part_002; it
    succeeds exactly when [generateContent] resolved with non-empty data and,
    if the debug copy is requested, [saveWaveFile] succeeded, and then it
    returns the decoded data.  [src/server.js] runs the same steps with the
    debug copy always on: it returns what the others return when they
    succeed, and the fallback [Buffer.from("")] when they throw. *)
Theorem textToAudio_across_revisions
    (g : Result (option string)) (d : bool) (s : Result unit) :
  Part001.textToAudio g d s = Part002.textToAudio g d s
  /\ (forall a, Part001.textToAudio g d s = Ok a
        <-> exists data, g = Ok (Some data) /\ truthy data = true
              /\ a = FromBase64 data /\ (d = true -> is_Throw s = false))
  /\ ServerJs.textToAudio g s
     = match Part001.textToAudio g true s with
       | Ok a => a
       | Throw _ => EmptyAudio
       end.
Proof.
  split; [done |]. split.
  - intros a. unfold Part001.textToAudio. split.
    + intros H. repeat case_match; simplify_eq; eexists; repeat split; eauto; done.
    + intros (data & -> & Ht & -> & Hd). rewrite Ht.
      destruct d; [| done]. specialize (Hd eq_refl). by destruct s.
  - unfold ServerJs.textToAudio, Part001.textToAudio. by repeat case_match.
Qed.

(** ** Audio chunks on their way to the transcriber *)

Lemma stream_writes_app (a b : list Call) :
  stream_writes (a ++ b) = stream_writes a ++ stream_writes b.
Proof. apply omap_app. Qed.

Lemma p2_resume_writes env t r (w : World Part002.SessionData) next w' :
  Part002.resume env t r w = Some (next, w') ->
  stream_writes (calls w') = stream_writes (calls w).
Proof.
  intros H. resume_cases H; rewrite ?stream_writes_app; simpl;
    by rewrite ?app_nil_r.
Qed.

(** One step of part_002: the transcriber field stays, and the stream is
    written exactly for a well-formed [audio_chunk] that finds a
    transcriber and a stream. *)
Lemma p2_step_writes env l (w w' : World Part002.SessionData) :
  Part002.step env l w = Some w' ->
  Part002.transcriber (session w') = Part002.transcriber (session w)
  /\ stream_writes (calls w')
     = stream_writes (calls w)
       ++ match Part002.transcriber (session w) with
          | Some _ => option_list (audio_payload (env, l))
          | None => []
          end.
Proof.
  intros H. destruct l as [[c|u] | i r]; simpl in H.
  - destruct c; simplify_eq/=;
      unfold Part002.on_audio_chunk, Part002.on_text_message,
        Part002.on_image_chunk, Part002.on_disconnect, audio_payload;
      repeat case_match; simplify_eq/=;
      rewrite ?stream_writes_app; simpl; rewrite ?app_nil_r;
      first [done | congruence].
  - simplify_eq. unfold Part002.on_upstream, Part002.on_turn, audio_payload.
    repeat case_match; simplify_eq/=;
      rewrite ?stream_writes_app; simpl; rewrite ?app_nil_r;
      first [done | congruence].
  - destruct (tasks w !! i) as [t|] eqn:Ht; [| done].
    destruct (Part002.resume env t r w) as [[next w1]|] eqn:Hr; [| done].
    simplify_eq.
    pose proof (p2_resume_frame _ _ _ _ _ _ Hr) as (Hx & _).
    apply p2_resume_writes in Hr.
    assert (session (reschedule i next w1) = session w1
            /\ calls (reschedule i next w1) = calls w1) as [-> ->]
      by (by destruct next).
    rewrite Hx, Hr. unfold audio_payload. simpl.
    by destruct (Part002.transcriber (session w)); rewrite app_nil_r.
Qed.

Lemma p2_run_writes tr : forall w w' : World Part002.SessionData,
  Part002.run tr w = Some w' ->
  Part002.transcriber (session w') = Part002.transcriber (session w)
  /\ stream_writes (calls w')
     = stream_writes (calls w)
       ++ match Part002.transcriber (session w) with
          | Some _ => audio_payloads tr
          | None => []
          end.
Proof.
  induction tr as [|[env l] tr IH]; intros w w' Hr; simpl in Hr.
  - simplify_eq. split; [done |]. by case_match; rewrite app_nil_r.
  - destruct (Part002.step env l w) as [w1|] eqn:Hs; [| done].
    apply p2_step_writes in Hs as [Hx Hw].
    destruct (IH _ _ Hr) as [Hx' Hw']. split; [congruence |].
    rewrite Hw', Hw, Hx, <- app_assoc. f_equal.
    unfold audio_payloads. simpl.
    destruct (Part002.transcriber (session w)); [| done].
    by destruct (audio_payload (env, l)).
Qed.

(** X4: in part_002 the buffers written to the transcriber's stream are
    exactly the payloads of the well-formed [audio_chunk] events that found
    a stream with its writer and whose [write] returned, in arrival order,
    each once, whatever other events and settlements come in between; a
    chunk that is malformed, finds no stream or writer, or whose [write]
    throws, writes nothing; a session whose transcriber could not be created
    writes nothing; and an audio chunk never emits an event, changes the
    session or lets an error escape. *)
Theorem p2_audio_chunks_forwarded_in_order
    (tr : list (SyncEnv * Label)) (w w' : World Part002.SessionData) :
  Part002.run tr w = Some w' ->
  (Part002.transcriber (session w) <> None ->
     stream_writes (calls w') = stream_writes (calls w) ++ audio_payloads tr)
  /\ (Part002.transcriber (session w) = None ->
     stream_writes (calls w') = stream_writes (calls w))
  /\ (forall env c,
     emitted (Part002.arrive env (client (audio_chunk c)) w') = emitted w'
     /\ unhandled (Part002.arrive env (client (audio_chunk c)) w') = unhandled w'
     /\ session (Part002.arrive env (client (audio_chunk c)) w') = session w').
Proof.
  intros Hr. apply p2_run_writes in Hr as [_ Hw]. split; [| split].
  - intros Hx. rewrite Hw. by destruct (Part002.transcriber (session w)).
  - intros Hx. rewrite Hw, Hx. by rewrite app_nil_r.
  - intros env c. simpl. unfold Part002.on_audio_chunk.
    by repeat case_match.
Qed.

Lemma p2_audio_chunks_forwarded_in_order_witness :
  let tr := [(at_time 0, Arrive (client (audio_chunk (Bytes AB))));
             (at_time 1, Arrive (client (text_message "hi")));
             (at_time 2, Arrive (client (audio_chunk (NotBytes "not a buffer"))));
             (MkEnv 3 false (Ok tt), Arrive (client (audio_chunk (Bytes AB))));
             (MkEnv 4 true (Throw "stream closed"),
              Arrive (client (audio_chunk (Bytes AB))));
             (at_time 5, Arrive (client (audio_chunk (Bytes CD))))] in
  exists w',
    Part002.run tr (Part002.connection Part002.connects) = Some w'
    /\ stream_writes (calls w') = [AB; CD]
    /\ stream_writes (calls w') = [] ++ audio_payloads tr.
Proof.
  eexists. split; [reflexivity |]. split; [reflexivity |].
  apply (p2_audio_chunks_forwarded_in_order
           [(at_time 0, Arrive (client (audio_chunk (Bytes AB))));
            (at_time 1, Arrive (client (text_message "hi")));
            (at_time 2, Arrive (client (audio_chunk (NotBytes "not a buffer"))));
            (MkEnv 3 false (Ok tt), Arrive (client (audio_chunk (Bytes AB))));
            (MkEnv 4 true (Throw "stream closed"),
             Arrive (client (audio_chunk (Bytes AB))));
            (at_time 5, Arrive (client (audio_chunk (Bytes CD))))]
           (Part002.connection Part002.connects)); [reflexivity | done].
Defined.


(** ** [src/server.js], one connection *)

(** Resuming a handler of [src/server.js] leaves the connection data and the
    task list alone, writes nothing to the stream, calls [AiProcessing] no
    further, and emits no [error]. *)
Lemma sj_resume_frame t r (w : World ServerJs.Connection) next w' :
  ServerJs.resume t r w = Some (next, w') ->
  session w' = session w
  /\ tasks w' = tasks w
  /\ stream_writes (calls w') = stream_writes (calls w)
  /\ images_passed (calls w') = images_passed (calls w)
  /\ (exists es, emitted w' = emitted w ++ es
        /\ Forall (fun e => is_error e = false) es)
  /\ length (unhandled w')
     = length (unhandled w)
       + match r with
         | close_settles (Throw _) => 1
         | _ => 0
         end.
Proof.
  intros H. sj_resume_cases H;
    rewrite ?stream_writes_app, ?images_passed_app, ?length_app; simpl;
    rewrite ?app_nil_r;
    (split; [done |]); (split; [done |]); (split; [done |]);
    (split; [done |]); (split; [| lia]);
    first [ by (exists []; rewrite app_nil_r)
          | by (eexists [_]; split; [reflexivity | repeat constructor])
          | by (eexists [_; _]; split;
                [by rewrite <- app_assoc | repeat constructor]) ].
Qed.

Lemma sj_step_facts env l img (w : World ServerJs.Connection) img' w' :
  ServerJs.step env l img w = Some (img', w') ->
  ServerJs.listening (session w') = ServerJs.listening (session w)
  /\ ServerJs.transcriber (session w') = ServerJs.transcriber (session w)
  /\ stream_writes (calls w')
     = stream_writes (calls w)
       ++ (if ServerJs.listening (session w)
           then option_list (audio_payload (env, l)) else [])
  /\ (completes_upload l = false -> img' = img)
  /\ (img <> None -> img' <> None)
  /\ (exists es, emitted w' = emitted w ++ es
        /\ Forall (fun e => is_error e = false) es)
  /\ length (unhandled w')
     = length (unhandled w) + (if sj_escapes env l w then 1 else 0).
Proof.
  intros H. destruct l as [[c|u] | i r]; simpl in H.
  - destruct (ServerJs.listening (session w)) eqn:Hl.
    + destruct c; simplify_eq/=;
        unfold ServerJs.on_audio_chunk, ServerJs.on_image_chunk,
          audio_payload, sj_escapes in *;
        rewrite ?Hl; simpl in *; repeat case_match; simplify_eq/=;
        rewrite ?stream_writes_app, ?length_app; simpl;
        rewrite ?app_nil_r;
        repeat split; try done; try lia; try congruence;
        try (by (exists []; rewrite app_nil_r)).
    + simplify_eq. rewrite Hl. simpl. rewrite app_nil_r.
      repeat split; try done; try (by (exists []; rewrite app_nil_r)).
      unfold sj_escapes. destruct c; rewrite ?Hl; simpl; lia.
  - assert (img' = img /\ (w' = w \/ exists t, w' = ServerJs.on_turn t img w))
      as [-> Hw].
    { destruct u; simplify_eq; try (split; [done | by left]).
      destruct (ServerJs.transcriber (session w)); simplify_eq; eauto. }
    assert (sj_escapes env (Arrive (upstream u)) w = false) as -> by done.
    unfold audio_payload. simpl.
    destruct Hw as [-> | [t ->]]; unfold ServerJs.on_turn;
      repeat case_match; simpl;
      rewrite ?stream_writes_app; simpl; rewrite ?app_nil_r;
      repeat split; try done; try lia;
      by (exists []; rewrite app_nil_r).
  - destruct (tasks w !! i) as [t|] eqn:Ht; [| done].
    destruct (ServerJs.resume t r w) as [[next w1]|] eqn:Hr; [| done].
    simplify_eq.
    pose proof (sj_resume_frame _ _ _ _ _ Hr) as (Hs & _ & Hw & _ & He & Hu).
    assert (session (reschedule i next w1) = session w1
            /\ calls (reschedule i next w1) = calls w1
            /\ emitted (reschedule i next w1) = emitted w1
            /\ unhandled (reschedule i next w1) = unhandled w1)
      as (-> & -> & -> & ->) by (by destruct next).
    rewrite Hs, Hw, Hu. unfold audio_payload. simpl.
    repeat split; try done.
    + by destruct (ServerJs.listening (session w)); rewrite app_nil_r.
    + sj_resume_cases Hr; simpl; lia.
Qed.

Lemma sj_escapes_listening env l (w w1 : World ServerJs.Connection) :
  ServerJs.listening (session w1) = ServerJs.listening (session w) ->
  sj_escapes env l w1 = sj_escapes env l w.
Proof. intros H. unfold sj_escapes. by rewrite H. Qed.

Lemma sj_run_facts tr : forall img (w : World ServerJs.Connection) img' w',
  ServerJs.run tr img w = Some (img', w') ->
  ServerJs.listening (session w') = ServerJs.listening (session w)
  /\ stream_writes (calls w')
     = stream_writes (calls w)
       ++ (if ServerJs.listening (session w) then audio_payloads tr else [])
  /\ (no_upload_completes tr = true -> img' = img)
  /\ (img <> None -> img' <> None)
  /\ (Forall (fun e => is_error e = false) (emitted w)
      -> Forall (fun e => is_error e = false) (emitted w'))
  /\ length (unhandled w')
     = length (unhandled w)
       + length (List.filter (fun x => sj_escapes x.1 x.2 w) tr).
Proof.
  induction tr as [|[env l] tr IH]; intros img w img' w' Hr; simpl in Hr.
  - simplify_eq. simpl. repeat split; try done; try lia.
    by case_match; rewrite app_nil_r.
  - destruct (ServerJs.step env l img w) as [[img1 w1]|] eqn:Hs; [| done].
    apply sj_step_facts in Hs as (Hl & _ & Hw & Hi & Hn & (es & He & Fe) & Hu).
    destruct (IH _ _ _ _ Hr) as (Hl' & Hw' & Hi' & Hn' & Fe' & Hu').
    split; [congruence |]. split; [| split; [| split; [| split]]].
    + rewrite Hw', Hw, Hl, <- app_assoc. f_equal.
      unfold audio_payloads. simpl.
      destruct (ServerJs.listening (session w)); [| done].
      by destruct (audio_payload (env, l)).
    + simpl. intros [Ha Hb]%andb_true_iff. apply negb_true_iff in Ha.
      rewrite (Hi' Hb). by apply Hi.
    + auto.
    + intros F. apply Fe'. rewrite He. apply Forall_app. by split.
    + rewrite Hu', Hu. simpl.
      rewrite (List.filter_ext _ (fun x => sj_escapes x.1 x.2 w)
                 (fun x => sj_escapes_listening x.1 x.2 w w1 Hl)).
      destruct (sj_escapes env l w); simpl; lia.
Qed.

(** X5: on a connection of [src/server.js] whose set-up completed, the
    buffers written to the transcriber's stream are exactly the payloads of
    the well-formed [audio_chunk] events that found a stream with its writer
    and whose [write] returned, in arrival order, each once, whatever else
    happens in between; a chunk that is malformed, finds no stream or
    writer, or whose [write] throws, writes nothing. *)
Theorem sj_audio_chunks_forwarded_in_order
    (tr : list (SyncEnv * Label)) img (w : World ServerJs.Connection) img' w' :
  ServerJs.run tr img w = Some (img', w') ->
  ServerJs.listening (session w) = true ->
  stream_writes (calls w') = stream_writes (calls w) ++ audio_payloads tr.
Proof.
  intros Hr Hl. apply sj_run_facts in Hr as (_ & Hw & _). by rewrite Hw, Hl.
Qed.

Lemma sj_audio_chunks_forwarded_in_order_witness :
  let tr := [(at_time 0, Arrive (client (audio_chunk (Bytes AB))));
             (at_time 1, Arrive (client (text_message "hi")));
             (at_time 2, Arrive (client (audio_chunk (NotBytes "not a buffer"))));
             (MkEnv 3 false (Ok tt), Arrive (client (audio_chunk (Bytes AB))));
             (MkEnv 4 true (Throw "stream closed"),
              Arrive (client (audio_chunk (Bytes AB))));
             (at_time 5, Arrive (client (audio_chunk (Bytes CD))))] in
  exists img' w',
    ServerJs.run tr None (ServerJs.connection ServerJs.connects) = Some (img', w')
    /\ ServerJs.listening (session (ServerJs.connection ServerJs.connects)) = true
    /\ stream_writes (calls w') = [AB; CD]
    /\ stream_writes (calls w') = [] ++ audio_payloads tr.
Proof.
  do 2 eexists. split; [reflexivity |]. split; [reflexivity |].
  split; [reflexivity |].
  eapply (sj_audio_chunks_forwarded_in_order
           [(at_time 0, Arrive (client (audio_chunk (Bytes AB))));
            (at_time 1, Arrive (client (text_message "hi")));
            (at_time 2, Arrive (client (audio_chunk (NotBytes "not a buffer"))));
            (MkEnv 3 false (Ok tt), Arrive (client (audio_chunk (Bytes AB))));
            (MkEnv 4 true (Throw "stream closed"),
             Arrive (client (audio_chunk (Bytes AB))));
            (at_time 5, Arrive (client (audio_chunk (Bytes CD))))]
           None (ServerJs.connection ServerJs.connects)); reflexivity.
Defined.

(** X6: a connection of [src/server.js] whose set-up failed (the transcriber
    could not be created, or [connect()] was rejected) has no socket
    listener: the set-up error is the one unhandled error, and every
    sequence of client events leaves the connection and [img] exactly as
    they were: no call, no event, no further error. *)
Theorem sj_failed_setup_is_deaf (tr : list (SyncEnv * Label)) (img : ServerJs.Img) :
  Forall (fun x => is_client x.2 = true) tr ->
  (forall w : World ServerJs.Connection,
     ServerJs.listening (session w) = false ->
     ServerJs.run tr img w = Some (img, w))
  /\ (forall m,
     unhandled (ServerJs.connection (ServerJs.transcriber_throws m)) = [m]
     /\ unhandled (ServerJs.connection (ServerJs.connect_rejects m)) = [m]
     /\ ServerJs.run tr img (ServerJs.connection (ServerJs.transcriber_throws m))
        = Some (img, ServerJs.connection (ServerJs.transcriber_throws m))
     /\ ServerJs.run tr img (ServerJs.connection (ServerJs.connect_rejects m))
        = Some (img, ServerJs.connection (ServerJs.connect_rejects m))).
Proof.
  intros Hc.
  assert (H : forall w : World ServerJs.Connection,
            ServerJs.listening (session w) = false ->
            ServerJs.run tr img w = Some (img, w)).
  { induction Hc as [|[env l] tr Hl Hc IH]; intros w Hw; [done |].
    destruct l as [[c|u] | i r]; try done. simpl. rewrite Hw. by apply IH. }
  split; [exact H |]. intros m. repeat split; by apply H.
Qed.

Lemma sj_failed_setup_is_deaf_witness :
  let tr := [(at_time 0, Arrive (client (image_chunk (Bytes AB) true)));
             (at_time 1, Arrive (client (text_message "hi")));
             (at_time 2, Arrive (client disconnect))] in
  Forall (fun x => is_client x.2 = true) tr
  /\ ServerJs.run tr None (ServerJs.connection (ServerJs.connect_rejects "401"))
     = Some (None, ServerJs.connection (ServerJs.connect_rejects "401")).
Proof.
  split; [by repeat constructor |].
  apply (proj2 (sj_failed_setup_is_deaf
                  [(at_time 0, Arrive (client (image_chunk (Bytes AB) true)));
                   (at_time 1, Arrive (client (text_message "hi")));
                   (at_time 2, Arrive (client disconnect))] None
                  ltac:(by repeat constructor)) "401").
Defined.

(** X7: [src/server.js] never emits an [error] event: from a connection
    that has emitted none, no trace produces one. *)
Theorem sj_never_emits_error
    (tr : list (SyncEnv * Label)) img (w : World ServerJs.Connection) img' w' :
  ServerJs.run tr img w = Some (img', w') ->
  Forall (fun e => is_error e = false) (emitted w) ->
  Forall (fun e => is_error e = false) (emitted w').
Proof. intros Hr. by apply sj_run_facts in Hr as (_ & _ & _ & _ & F & _). Qed.

Lemma sj_never_emits_error_witness :
  let tr := [(at_time 0, Arrive (client (text_message "hi")));
             (at_time 1, Arrive (client (image_chunk (NotBytes "not a buffer") true)));
             (at_time 2, Settle 0 (AiProcessing_settles (Ok "hello")));
             (at_time 3, Settle 0 (textToAudio_runs (Throw "tts down") false (Ok tt)))] in
  exists img' w',
    ServerJs.run tr None (ServerJs.connection ServerJs.connects) = Some (img', w')
    /\ unhandled w' = ["not a buffer"]
    /\ Forall (fun e => is_error e = false) (emitted w').
Proof.
  do 2 eexists. split; [reflexivity |]. split; [reflexivity |].
  eapply (sj_never_emits_error
           [(at_time 0, Arrive (client (text_message "hi")));
            (at_time 1, Arrive (client (image_chunk (NotBytes "not a buffer") true)));
            (at_time 2, Settle 0 (AiProcessing_settles (Ok "hello")));
            (at_time 3, Settle 0 (textToAudio_runs (Throw "tts down") false (Ok tt)))]
           None (ServerJs.connection ServerJs.connects)); [reflexivity | constructor].
Defined.

(** X8: in [src/server.js] the number of errors that left a handler
    uncaught grows by exactly one at each audio chunk that finds no stream,
    is malformed or cannot be written, at each malformed image chunk, and at
    each rejected [close()], and at no other step: whatever [AiProcessing]
    and [textToAudio] do, the [text_message] and [turn] handlers let nothing
    escape. *)
Theorem sj_escaped_errors_counted
    (tr : list (SyncEnv * Label)) img (w : World ServerJs.Connection) img' w' :
  ServerJs.run tr img w = Some (img', w') ->
  length (unhandled w')
  = length (unhandled w) + length (List.filter (fun x => sj_escapes x.1 x.2 w) tr).
Proof. intros Hr. by apply sj_run_facts in Hr as (_ & _ & _ & _ & _ & F). Qed.

Lemma sj_escaped_errors_counted_witness :
  let tr := [(at_time 0, Arrive (client (text_message "hi")));
             (at_time 1, Settle 0 (AiProcessing_settles (Throw "model overloaded")));
             (at_time 2, Arrive (upstream (turn "what is this")));
             (MkEnv 3 true (Throw "stream closed"), Arrive (client (audio_chunk (Bytes AB))));
             (at_time 4, Arrive (client (image_chunk (NotBytes "not a buffer") false)))] in
  let w := ServerJs.connection ServerJs.connects in
  exists img' w',
    ServerJs.run tr None w = Some (img', w')
    /\ unhandled w' = ["stream closed"; "not a buffer"]
    /\ length (unhandled w')
       = length (unhandled w) + length (List.filter (fun x => sj_escapes x.1 x.2 w) tr).
Proof.
  do 2 eexists. split; [reflexivity |]. split; [reflexivity |].
  eapply (sj_escaped_errors_counted
           [(at_time 0, Arrive (client (text_message "hi")));
            (at_time 1, Settle 0 (AiProcessing_settles (Throw "model overloaded")));
            (at_time 2, Arrive (upstream (turn "what is this")));
            (MkEnv 3 true (Throw "stream closed"), Arrive (client (audio_chunk (Bytes AB))));
            (at_time 4, Arrive (client (image_chunk (NotBytes "not a buffer") false)))]
           None (ServerJs.connection ServerJs.connects)); reflexivity.
Defined.

Lemma in_flight_suspend {S : Type} (t : Task) (w : World S) :
  in_flight (suspend t w) = in_flight w + (if ai_call t then 1 else 0).
Proof. unfold in_flight, suspend. simpl. rewrite count_app. simpl. lia. Qed.

(** X9: [src/server.js] starts one [AiProcessing] call per [text_message],
    at once and whatever is already in flight: after [n] messages in a row
    [n] more calls are in flight, each made with the current [img] and its
    message, in order, and nothing has been emitted. *)
Theorem sj_each_text_message_starts_a_call
    (ms : list string) (img : ServerJs.Img) (w : World ServerJs.Connection) :
  ServerJs.listening (session w) = true ->
  exists w',
    ServerJs.run (text_messages ms) img w = Some (img, w')
    /\ in_flight w' = in_flight w + length ms
    /\ calls w' = calls w ++ map (call_AiProcessing img) ms
    /\ emitted w' = emitted w
    /\ unhandled w' = unhandled w.
Proof.
  revert w. induction ms as [|m ms IH]; intros w Hl; simpl.
  - exists w. rewrite app_nil_r. split; [done |]. split; [lia | done].
  - rewrite Hl.
    destruct (IH (ServerJs.on_text_message m img w) Hl)
      as (w' & Hr & Hf & Hc & He & Hu).
    exists w'. split; [exact Hr |]. rewrite Hf, Hc, He, Hu.
    unfold ServerJs.on_text_message. rewrite in_flight_suspend. simpl.
    rewrite <- app_assoc. split; [unfold in_flight; simpl; lia | done].
Qed.

Lemma sj_each_text_message_starts_a_call_witness :
  let w := ServerJs.connection ServerJs.connects in
  ServerJs.listening (session w) = true
  /\ exists w',
    ServerJs.run (text_messages ["a"; "b"; "c"]) (Some AB) w = Some (Some AB, w')
    /\ in_flight w' = in_flight w + length ["a"; "b"; "c"]
    /\ calls w' = calls w ++ map (call_AiProcessing (Some AB)) ["a"; "b"; "c"]
    /\ emitted w' = emitted w
    /\ unhandled w' = unhandled w.
Proof.
  split; [reflexivity |].
  apply (sj_each_text_message_starts_a_call ["a"; "b"; "c"] (Some AB)
           (ServerJs.connection ServerJs.connects)).
  reflexivity.
Defined.

(** ** [src/server.js], the whole process *)

Lemma sj_deliver_img env id l (p p' : ServerJs.Process) :
  ServerJs.deliver env id l p = Some p' ->
  (completes_upload l = false -> ServerJs.img p' = ServerJs.img p)
  /\ (ServerJs.img p <> None -> ServerJs.img p' <> None).
Proof.
  unfold ServerJs.deliver. intros H.
  destruct (ServerJs.sockets p !! id) as [w|]; [| done].
  destruct (ServerJs.step env l (ServerJs.img p) w) as [[img' w']|] eqn:Hs;
    [| done].
  simplify_eq. simpl.
  by apply sj_step_facts in Hs as (_ & _ & _ & Hi & Hn & _).
Qed.

(** X10: the module-level [img] of [src/server.js] changes only when some
    connection completes an image upload, and once it holds an image it
    holds one for ever: no event of any connection, no disconnect and no
    settlement resets it. *)
Theorem sj_img_is_never_forgotten
    (tr : list (SyncEnv * string * Label)) (p p' : ServerJs.Process) :
  ServerJs.deliver_all tr p = Some p' ->
  (forallb (fun x => negb (process_completes_upload x)) tr = true ->
     ServerJs.img p' = ServerJs.img p)
  /\ (ServerJs.img p <> None -> ServerJs.img p' <> None).
Proof.
  revert p. induction tr as [|[[env id] l] tr IH]; intros p Hd; simpl in Hd.
  - by simplify_eq.
  - destruct (ServerJs.deliver env id l p) as [p1|] eqn:H1; [| done].
    apply sj_deliver_img in H1 as [Hi Hn].
    destruct (IH _ Hd) as [Hi' Hn']. split.
    + simpl. intros [Ha Hb]%andb_true_iff. apply negb_true_iff in Ha.
      rewrite (Hi' Hb). by apply Hi.
    + auto.
Qed.

Lemma sj_img_is_never_forgotten_witness :
  let p := ServerJs.connect "B" ServerJs.connects
             (ServerJs.connect "A" ServerJs.connects
                (ServerJs.MkProcess (Some AB) ∅)) in
  let tr := [(at_time 0, "A", Arrive (client (image_chunk (Bytes CD) false)));
             (at_time 1, "A", Arrive (client disconnect));
             (at_time 2, "A", Settle 0 (close_settles (Ok tt)));
             (at_time 3, "B", Arrive (client clear_image))] in
  exists p',
    ServerJs.deliver_all tr p = Some p'
    /\ forallb (fun x => negb (process_completes_upload x)) tr = true
    /\ ServerJs.img p' = Some AB.
Proof.
  eexists. split; [vm_compute; reflexivity |]. split; [reflexivity |].
  refine (proj1 (sj_img_is_never_forgotten
            [(at_time 0, "A", Arrive (client (image_chunk (Bytes CD) false)));
             (at_time 1, "A", Arrive (client disconnect));
             (at_time 2, "A", Settle 0 (close_settles (Ok tt)));
             (at_time 3, "B", Arrive (client clear_image))]
            (ServerJs.connect "B" ServerJs.connects
               (ServerJs.connect "A" ServerJs.connects
                  (ServerJs.MkProcess (Some AB) ∅))) _ _) _);
    [vm_compute; reflexivity | reflexivity].
Defined.

(** ** Requests and their answers *)

Lemma answers_app (a b : list ServerEvent) :
  answers (a ++ b) = answers a + answers b.
Proof. unfold answers. by rewrite List.filter_app, length_app. Qed.

Lemma replies_app (a b : list ServerEvent) :
  replies (a ++ b) = replies a + replies b.
Proof. unfold replies. by rewrite List.filter_app, length_app. Qed.

(** An invocation of part_001 that goes on emits nothing; one that ends
    emits exactly one event, and it is an answer. *)
Lemma p1_resume_answers env t r (w : World Part001.SessionData) next w' :
  Part001.resume env t r w = Some (next, w') ->
  answers (emitted w')
  = answers (emitted w) + match next with Some _ => 0 | None => 1 end.
Proof.
  intros H. resume_cases H; rewrite ?answers_app;
    repeat match goal with
           | o : Origin |- _ => destruct o; simplify_eq/=
           end;
    unfold answers; simpl; lia.
Qed.

Lemma p1_step_answers env l (w w' : World Part001.SessionData) :
  Part001.step env l w = Some w' ->
  answers (emitted w') + active w'
  = answers (emitted w) + active w + (if is_request l then 1 else 0).
Proof.
  intros H. destruct l as [[c|u] | i r]; simpl in H.
  - destruct c; simplify_eq/=;
      unfold Part001.on_audio_full, Part001.on_text_message,
        Part001.on_image_chunk, Part001.catch_finally;
      repeat case_match; simplify_eq/=;
      rewrite ?active_suspend, ?answers_app; simpl;
      unfold active, answers; simpl; lia.
  - simplify_eq. simpl. lia.
  - destruct (tasks w !! i) as [t|] eqn:Ht; [| done].
    destruct (Part001.resume env t r w) as [[next w1]|] eqn:Hr; [| done].
    simplify_eq.
    pose proof (p1_resume_frame _ _ _ _ _ _ Hr) as (_ & _ & Htk & _).
    pose proof (p1_resume_answers _ _ _ _ _ _ Hr) as Ha.
    apply p1_resume_flag in Hr as (Hd & _ & Hn).
    unfold active. destruct next as [t'|]; simpl; rewrite Htk.
    + destruct Hn as (Hd' & _).
      pose proof (count_insert dispatching _ _ _ t' Ht) as Hc.
      rewrite Hd, Hd' in Hc. lia.
    + pose proof (count_delete dispatching _ _ _ Ht) as Hc.
      rewrite Hd in Hc. lia.
Qed.

Lemma p1_run_answers tr : forall w w' : World Part001.SessionData,
  Part001.run tr w = Some w' ->
  answers (emitted w') + active w'
  = answers (emitted w) + active w + requests tr.
Proof.
  induction tr as [|[env l] tr IH]; intros w w' Hr; simpl in Hr.
  - simplify_eq. unfold requests. simpl. lia.
  - destruct (Part001.step env l w) as [w1|] eqn:Hs; [| done].
    apply p1_step_answers in Hs. apply IH in Hr.
    unfold requests in *. simpl. destruct (is_request l); simpl; lia.
Qed.

(** X11: in part_001 every [text_message] and [audio_full] event is answered
    exactly once: at any moment of any run of a connection, the number of
    such events received equals the number of answers emitted
    ([ai_response], or an [error] of type busy, full_audio or
    text_processing) plus the number of requests still being processed,
    which is at most one. *)
Theorem p1_every_request_answered_once
    (tr : list (SyncEnv * Label)) (w : World Part001.SessionData) :
  Part001.run tr Part001.connection = Some w ->
  requests tr = answers (emitted w) + active w /\ active w <= 1.
Proof.
  intros Hr. split.
  - apply p1_run_answers in Hr.
    change (active Part001.connection) with 0 in Hr.
    change (answers (emitted Part001.connection)) with 0 in Hr. lia.
  - eapply (flag_bounds_in_flight w), (p1_run_flag tr _ _ Hr). reflexivity.
Qed.

Lemma p1_every_request_answered_once_witness :
  let tr := [(at_time 0, Arrive (client (text_message "hi")));
             (at_time 1, Arrive (client (audio_full (Bytes AB))));
             (at_time 2, Arrive (client (image_chunk (NotBytes "not a buffer") true)));
             (at_time 3, Settle 0 (AiProcessing_settles (Throw "model overloaded")));
             (at_time 4, Arrive (client (audio_full (NotBytes "not a buffer"))));
             (at_time 5, Arrive (client (text_message "again")))] in
  exists w,
    Part001.run tr Part001.connection = Some w
    /\ requests tr = 4 /\ answers (emitted w) = 3 /\ active w = 1
    /\ requests tr = answers (emitted w) + active w /\ active w <= 1.
Proof.
  eexists. split; [reflexivity |]. do 3 (split; [reflexivity |]).
  apply (p1_every_request_answered_once
           [(at_time 0, Arrive (client (text_message "hi")));
            (at_time 1, Arrive (client (audio_full (Bytes AB))));
            (at_time 2, Arrive (client (image_chunk (NotBytes "not a buffer") true)));
            (at_time 3, Settle 0 (AiProcessing_settles (Throw "model overloaded")));
            (at_time 4, Arrive (client (audio_full (NotBytes "not a buffer"))));
            (at_time 5, Arrive (client (text_message "again")))]).
  reflexivity.
Defined.

(** What a resumed handler of part_002 does to the balance of
    [AiProcessing] calls and replies. *)
Lemma p2_resume_replies env t r (w : World Part002.SessionData) next w' :
  Part002.resume env t r w = Some (next, w') ->
  length (images_passed (calls w')) = length (images_passed (calls w))
  /\ replies (emitted w')
     = replies (emitted w)
       + match t, next with
         | await_close, _ => 0
         | _, Some _ => 0
         | _, None => 1
         end
  /\ exists es, emitted w' = emitted w ++ es /\ Forall p2_fixed_message es.
Proof.
  intros H. resume_cases H;
    rewrite ?replies_app, ?images_passed_app, ?length_app; simpl;
    repeat match goal with
           | o : Origin |- _ => destruct o; simplify_eq/=
           end;
    (split; [lia |]); (split; [unfold replies; simpl; lia |]);
    first [ by (exists []; rewrite app_nil_r)
          | by (eexists [_]; split; [reflexivity | repeat constructor; done]) ].
Qed.

Lemma p2_step_replies env l (w w' : World Part002.SessionData) :
  Part002.step env l w = Some w' ->
  length (images_passed (calls w')) + replies (emitted w) + active w
  = length (images_passed (calls w)) + replies (emitted w') + active w'
  /\ exists es, emitted w' = emitted w ++ es /\ Forall p2_fixed_message es.
Proof.
  intros H. destruct l as [[c|u] | i r]; simpl in H.
  - destruct c; simplify_eq/=;
      unfold Part002.on_audio_chunk, Part002.on_text_message,
        Part002.on_image_chunk, Part002.on_disconnect, Part002.on_audio_start,
        Part002.clear_session;
      repeat case_match; simplify_eq/=;
      rewrite ?active_suspend, ?replies_app, ?images_passed_app, ?length_app;
      simpl; (split; [unfold active, replies; simpl; lia |]);
      first [ by (exists []; rewrite app_nil_r)
            | by (eexists [_]; split; [reflexivity | repeat constructor; done]) ].
  - simplify_eq. unfold Part002.on_upstream, Part002.on_turn.
    repeat case_match; simplify_eq/=;
      rewrite ?active_suspend, ?replies_app, ?images_passed_app, ?length_app;
      simpl; (split; [unfold active, replies; simpl; lia |]);
      first [ by (exists []; rewrite app_nil_r)
            | by (eexists [_]; split; [reflexivity | repeat constructor; done]) ].
  - destruct (tasks w !! i) as [t|] eqn:Ht; [| done].
    destruct (Part002.resume env t r w) as [[next w1]|] eqn:Hr; [| done].
    simplify_eq.
    pose proof (p2_resume_frame _ _ _ _ _ _ Hr) as (_ & Htk & _).
    pose proof (p2_resume_replies _ _ _ _ _ _ Hr) as (Hc & Hp & Hf).
    apply p2_resume_flag in Hr.
    assert (calls (reschedule i next w1) = calls w1
            /\ emitted (reschedule i next w1) = emitted w1) as [-> ->]
      by (by destruct next).
    split; [| done]. rewrite Hc, Hp. unfold active.
    destruct t; try (by destruct Hr);
      try (destruct Hr as (Hd & _ & Hn); destruct next as [t'|]; simpl;
           rewrite Htk;
           [ destruct Hn as (Hd' & _);
             pose proof (count_insert dispatching _ _ _ t' Ht) as Hx;
             rewrite Hd, Hd' in Hx; lia
           | pose proof (count_delete dispatching _ _ _ Ht) as Hx;
             rewrite Hd in Hx; lia ]).
    destruct Hr as [-> _]. simpl. rewrite Htk.
    pose proof (count_delete dispatching _ _ _ Ht) as Hx. simpl in Hx. lia.
Qed.

Lemma p2_run_replies tr : forall w w' : World Part002.SessionData,
  Part002.run tr w = Some w' ->
  length (images_passed (calls w')) + replies (emitted w) + active w
  = length (images_passed (calls w)) + replies (emitted w') + active w'
  /\ exists es, emitted w' = emitted w ++ es /\ Forall p2_fixed_message es.
Proof.
  induction tr as [|[env l] tr IH]; intros w w' Hr; simpl in Hr.
  - simplify_eq. split; [lia |]. exists []. by rewrite app_nil_r.
  - destruct (Part002.step env l w) as [w1|] eqn:Hs; [| done].
    apply p2_step_replies in Hs as (H1 & es1 & He1 & F1).
    apply IH in Hr as (H2 & es2 & He2 & F2). split; [lia |].
    exists (es1 ++ es2). rewrite He2, He1, <- app_assoc. split; [done |].
    apply Forall_app. by split.
Qed.

(** X12: in part_002 every [AiProcessing] call ends in exactly one reply:
    at any moment of any run of a connection, [audio_start] included, the
    number of [AiProcessing] calls made equals the number of replies emitted
    ([ai_response], or an [error] of type ai_processing or text_processing)
    plus the number of invocations still in progress. *)
Theorem p2_every_call_replied_once
    (s : Part002.Setup) (tr : list (SyncEnv * Label))
    (w : World Part002.SessionData) :
  Part002.run tr (Part002.connection s) = Some w ->
  length (images_passed (calls w)) = replies (emitted w) + active w.
Proof.
  intros Hr. apply p2_run_replies in Hr as [H _].
  assert (active (Part002.connection s) = 0
          /\ replies (emitted (Part002.connection s)) = 0
          /\ length (images_passed (calls (Part002.connection s))) = 0)
    as (H1 & H2 & H3) by (by destruct s).
  lia.
Qed.

Lemma p2_every_call_replied_once_witness :
  let tr := [(at_time 0, Arrive (client (text_message "hi")));
             (at_time 1, Arrive (client audio_start));
             (at_time 2, Arrive (upstream (turn "what is this")));
             (at_time 3, Arrive (client (text_message "busy now")));
             (at_time 4, Settle 1 (AiProcessing_settles (Throw "model overloaded")))] in
  exists w,
    Part002.run tr (Part002.connection Part002.connects) = Some w
    /\ length (images_passed (calls w)) = 2
    /\ replies (emitted w) = 1 /\ active w = 1
    /\ length (images_passed (calls w)) = replies (emitted w) + active w.
Proof.
  eexists. split; [reflexivity |]. do 3 (split; [reflexivity |]).
  apply (p2_every_call_replied_once Part002.connects
           [(at_time 0, Arrive (client (text_message "hi")));
            (at_time 1, Arrive (client audio_start));
            (at_time 2, Arrive (upstream (turn "what is this")));
            (at_time 3, Arrive (client (text_message "busy now")));
            (at_time 4, Settle 1 (AiProcessing_settles (Throw "model overloaded")))]).
  reflexivity.
Defined.

(** X13: part_002 never passes the message of a failed [AiProcessing] or
    [textToAudio] on to the client: in every run of a connection, each
    [error] event of type ai_processing, text_processing or busy carries the
    fixed text of its handler. *)
Theorem p2_failure_messages_are_fixed
    (s : Part002.Setup) (tr : list (SyncEnv * Label))
    (w : World Part002.SessionData) :
  Part002.run tr (Part002.connection s) = Some w ->
  forall type message,
    In (emit_error type message) (emitted w) ->
    (type = "busy" -> message = "Still processing previous request")
    /\ (type = "ai_processing" -> message = "Failed to process your request")
    /\ (type = "text_processing" -> message = "Failed to process your message").
Proof.
  intros Hr ty msg Hin. apply p2_run_replies in Hr as (_ & es & He & F).
  rewrite He in Hin. apply in_app_or in Hin as [Hin | Hin].
  - destruct s; simpl in Hin; try done;
      destruct Hin as [E | []]; by simplify_eq.
  - rewrite Forall_forall in F. apply list_elem_of_In in Hin.
    exact (F _ Hin).
Qed.

Lemma p2_failure_messages_are_fixed_witness :
  let tr := [(at_time 0, Arrive (client (text_message "hi")));
             (at_time 1, Settle 0 (AiProcessing_settles (Throw "API key 123 rejected")))] in
  exists w,
    Part002.run tr (Part002.connection Part002.connects) = Some w
    /\ emitted w = [emit_error "text_processing" "Failed to process your message"]
    /\ forall type message,
         In (emit_error type message) (emitted w) ->
         (type = "busy" -> message = "Still processing previous request")
         /\ (type = "ai_processing" -> message = "Failed to process your request")
         /\ (type = "text_processing" -> message = "Failed to process your message").
Proof.
  eexists. split; [reflexivity |]. split; [reflexivity |].
  apply (p2_failure_messages_are_fixed Part002.connects
           [(at_time 0, Arrive (client (text_message "hi")));
            (at_time 1, Settle 0 (AiProcessing_settles (Throw "API key 123 rejected")))]).
  reflexivity.
Defined.

(** ** Defeating the guard; the [audio_full] pipeline *)

(** X14: in part_002 the busy flag is no bound once [audio_start] events
    arrive: from any session, [n] rounds of [audio_start] followed by a
    [text_message] start [n] more [AiProcessing] calls, all in flight
    together, without a single busy rejection. *)
Theorem p2_audio_start_defeats_the_guard
    (n : nat) (m : string) (w : World Part002.SessionData) :
  exists w',
    Part002.run (restarts n m) w = Some w'
    /\ in_flight w' = in_flight w + n
    /\ calls w'
       = calls w ++ replicate n (call_AiProcessing (Part002.image (session w)) m)
    /\ emitted w' = emitted w.
Proof.
  revert w. induction n as [|n IH]; intros w; simpl.
  - exists w. rewrite app_nil_r. split; [done |]. split; [lia | done].
  - unfold Part002.on_text_message at 1. simpl.
    match goal with
    | |- context [Part002.run _ ?w1] =>
        destruct (IH w1) as (w' & Hr & Hf & Hc & He)
    end.
    exists w'. split; [exact Hr |]. rewrite Hf, Hc, He.
    rewrite in_flight_suspend. simpl. rewrite <- app_assoc.
    split; [unfold in_flight; simpl; lia | done].
Qed.

Lemma ltb_succ (n : nat) : (n <? n + 1) = true.
Proof. apply Nat.ltb_lt. lia. Qed.

(** X15: an [audio_full] request of part_001 that is accepted and whose
    transcription succeeds passes each result to the next stage: the bytes
    to [upload], the returned URL to [transcripts.create], the returned id to
    [transcripts.wait], the transcript (the empty string when there is none)
    with the session's image to [AiProcessing], and the reply to
    [textToAudio]; the client then receives exactly one event, the
    [ai_response] with that reply and the audio as base64, or a full_audio
    [error] with the message of the stage that failed. *)
Theorem p1_audio_full_pipeline
    (env : SyncEnv) (o : Oracle) (b : Buffer) (url id : string)
    (t : option string) (w : World Part001.SessionData) :
  Part001.isProcessing (session w) = false ->
  upload_result o = Ok url ->
  create_result o = Ok id ->
  wait_result o = Ok t ->
  let w2 := drive Part001.step 5 env o (length (tasks w))
              (Part001.arrive env (client (audio_full (Bytes b))) w) in
  calls w2
  = calls w
    ++ [call_upload b; call_transcripts_create url; call_transcripts_wait id;
        call_AiProcessing (Part001.image (session w)) (default "" t)]
    ++ match AiProcessing_result o with
       | Ok r => [call_textToAudio r]
       | Throw _ => []
       end
  /\ emitted w2
     = emitted w
       ++ [match AiProcessing_result o with
           | Throw m => emit_error "full_audio" m
           | Ok r =>
               match Part001.textToAudio (generateContent_result o)
                       (debug_save_audio o) (saveWaveFile_result o) with
               | Ok a => emit_ai_response r (Base64String a) (now env)
               | Throw m => emit_error "full_audio" m
               end
           end].
Proof.
  intros Hidle Hu Hc Hw w2. subst w2.
  destruct w as [s l em cs un]. destruct o as [ou oc ow oa og od os ocl].
  simpl in *. subst.
  unfold Part001.on_audio_full. simpl. rewrite Hidle. simpl.
  unfold suspend, call, with_session. simpl.
  repeat (rewrite ?lookup_slot, ?insert_slot, ?delete_slot, ?length_app,
            ?Nat.ltb_irrefl, ?ltb_succ; simpl).
  destruct oa as [r | m]; simpl;
    repeat (rewrite ?lookup_slot, ?insert_slot, ?delete_slot, ?length_app,
              ?Nat.ltb_irrefl, ?ltb_succ; simpl).
  - destruct (Part001.textToAudio og od os); simpl;
      repeat (rewrite ?lookup_slot, ?insert_slot, ?delete_slot, ?length_app,
                ?Nat.ltb_irrefl, ?ltb_succ; simpl);
      by rewrite <- !app_assoc.
  - by rewrite <- !app_assoc.
Qed.

Lemma p1_audio_full_pipeline_witness :
  let o := {| upload_result := Ok "https://cdn/upload/1";
              create_result := Ok "tr-1";
              wait_result := Ok None;
              AiProcessing_result := Ok "I heard nothing";
              generateContent_result := Ok (Some "UklGRg==");
              debug_save_audio := false;
              saveWaveFile_result := Throw "disk full";
              close_result := Ok tt |} in
  let w := Part001.on_image_chunk (at_time 0) (Bytes CD) true Part001.connection in
  let w2 := drive Part001.step 5 (at_time 9) o (length (tasks w))
              (Part001.arrive (at_time 9) (client (audio_full (Bytes AB))) w) in
  Part001.isProcessing (session w) = false
  /\ calls w2
     = [call_upload AB; call_transcripts_create "https://cdn/upload/1";
        call_transcripts_wait "tr-1"; call_AiProcessing (Some CD) "";
        call_textToAudio "I heard nothing"]
  /\ emitted w2
     = emitted w
       ++ [emit_ai_response "I heard nothing" (Base64String (FromBase64 "UklGRg==")) 9%Z].
Proof.
  split; [reflexivity |].
  apply (p1_audio_full_pipeline (at_time 9)
           {| upload_result := Ok "https://cdn/upload/1";
              create_result := Ok "tr-1";
              wait_result := Ok None;
              AiProcessing_result := Ok "I heard nothing";
              generateContent_result := Ok (Some "UklGRg==");
              debug_save_audio := false;
              saveWaveFile_result := Throw "disk full";
              close_result := Ok tt |}
           AB "https://cdn/upload/1" "tr-1" None
           (Part001.on_image_chunk (at_time 0) (Bytes CD) true Part001.connection));
    reflexivity.
Defined.

(** ** Image chunks in [src/server.js] *)

(** One step of [src/server.js] on the pending chunks of a connection: a
    well-formed chunk that is not the last is appended, a well-formed last
    chunk empties the list and stores the concatenation in [img], and
    nothing else touches the list (a disconnect does not clear it). *)
Lemma sj_pending_step env l img (w : World ServerJs.Connection) img' w' :
  ServerJs.step env l img w = Some (img', w') ->
  ServerJs.listening (session w) = true ->
  match l with
  | Arrive (client (image_chunk (Bytes b) false)) =>
      ServerJs.imageChunks (session w') = ServerJs.imageChunks (session w) ++ [b]
  | Arrive (client (image_chunk (Bytes b) true)) =>
      ServerJs.imageChunks (session w') = []
      /\ img' = Some (Buffer_concat (ServerJs.imageChunks (session w) ++ [b]))
      /\ emitted w' = emitted w
  | _ => ServerJs.imageChunks (session w') = ServerJs.imageChunks (session w)
  end.
Proof.
  intros H Hl. destruct l as [[c|u] | i r]; simpl in H.
  - rewrite Hl in H.
    destruct c as [a | a | | | c [|] | m | |]; simplify_eq/=;
      unfold ServerJs.on_audio_chunk, ServerJs.on_image_chunk in *;
      repeat case_match; simplify_eq/=; done.
  - assert (w' = w \/ exists t, w' = ServerJs.on_turn t img w) as Hw.
    { destruct u; simplify_eq; eauto.
      destruct (ServerJs.transcriber (session w)); simplify_eq; eauto. }
    destruct Hw as [-> | [t ->]]; unfold ServerJs.on_turn;
      destruct u; by repeat case_match.
  - destruct (tasks w !! i) as [t|] eqn:Ht; [| done].
    destruct (ServerJs.resume t r w) as [[next w1]|] eqn:Hr; [| done].
    simplify_eq. apply sj_resume_frame in Hr as (Hs & _).
    assert (session (reschedule i next w1) = session w1) as ->
      by (by destruct next).
    by rewrite Hs.
Qed.

Lemma sj_run_pending tr : forall img (w : World ServerJs.Connection) img' w',
  ServerJs.run tr img w = Some (img', w') ->
  ServerJs.listening (session w) = true ->
  no_upload_completes tr = true ->
  ServerJs.imageChunks (session w')
  = ServerJs.imageChunks (session w) ++ chunk_payloads tr.
Proof.
  induction tr as [|[env l] tr IH]; intros img w img' w' Hr Hl Hn; simpl in *.
  - simplify_eq. by rewrite app_nil_r.
  - apply andb_true_iff in Hn as [Ha Hn]. apply negb_true_iff in Ha.
    destruct (ServerJs.step env l img w) as [[img1 w1]|] eqn:Hs; [| done].
    pose proof (sj_step_facts _ _ _ _ _ _ Hs) as (Hl1 & _).
    apply sj_pending_step in Hs; [| done].
    rewrite (IH _ _ _ _ Hr) by congruence.
    unfold chunk_payloads. simpl.
    destruct l as [[[| | | | [b|m] [|] | | |]|u] | i r]; simpl in *;
      try done; try (by rewrite Hs).
    by rewrite Hs, <- app_assoc.
Qed.

(** X17: on a connection of [src/server.js] whose set-up completed, an
    upload whose only terminal chunk is its last one stores in the
    module-level [img] the concatenation of the connection's pending chunks
    and of all well-formed payloads in arrival order, whatever other events
    come in between (a disconnect included: it does not clear the pending
    chunks), and empties the pending list; no acknowledgement is emitted. *)
Theorem sj_image_chunks_reassemble
    (tr : list (SyncEnv * Label)) (env : SyncEnv) (b : Buffer)
    img (w : World ServerJs.Connection) img1 w1 :
  ServerJs.run tr img w = Some (img1, w1) ->
  ServerJs.listening (session w) = true ->
  no_upload_completes tr = true ->
  exists w',
    ServerJs.step env (Arrive (client (image_chunk (Bytes b) true))) img1 w1
    = Some (Some (Buffer_concat (ServerJs.imageChunks (session w)
                                 ++ chunk_payloads tr ++ [b])), w')
    /\ ServerJs.imageChunks (session w') = []
    /\ emitted w' = emitted w1.
Proof.
  intros Hr Hl Hn.
  pose proof (sj_run_facts _ _ _ _ _ Hr) as (Hl1 & _).
  pose proof (sj_run_pending _ _ _ _ _ Hr Hl Hn) as Hp.
  simpl. rewrite Hl1, Hl. unfold ServerJs.on_image_chunk. simpl.
  eexists. split; [by rewrite Hp, <- app_assoc | done].
Qed.

Lemma sj_image_chunks_reassemble_witness :
  let tr := [(at_time 0, Arrive (client (image_chunk (Bytes AB) false)));
             (at_time 1, Arrive (client (text_message "what is this")));
             (at_time 2, Arrive (client disconnect))] in
  let w := ServerJs.connection ServerJs.connects in
  exists img1 w1 w',
    ServerJs.run tr None w = Some (img1, w1)
    /\ ServerJs.step (at_time 3) (Arrive (client (image_chunk (Bytes CD) true))) img1 w1
       = Some (Some (Buffer_concat ([] ++ chunk_payloads tr ++ [CD])), w')
    /\ Buffer_concat ([] ++ chunk_payloads tr ++ [CD]) = AB ++ CD
    /\ ServerJs.imageChunks (session w') = []
    /\ emitted w' = emitted w1.
Proof.
  do 2 eexists.
  destruct (sj_image_chunks_reassemble
              [(at_time 0, Arrive (client (image_chunk (Bytes AB) false)));
               (at_time 1, Arrive (client (text_message "what is this")));
               (at_time 2, Arrive (client disconnect))]
              (at_time 3) CD None (ServerJs.connection ServerJs.connects)
              _ _ eq_refl eq_refl eq_refl) as (w' & Hs & Hc & He).
  exists w'. split; [reflexivity |]. split; [exact Hs |].
  split; [reflexivity |]. by split.
Defined.
